(** * The annotation session of src/App.jsx

    A shallow embedding of the state container of the [App] component
    (src/App.jsx, lines 28-202) and of the handlers it passes to the canvas
    stage, the tool bar, the pagination buttons and the file input, of the
    nodes its layer renders for lines and shapes (lines 267-321) and of the
    clicks of the pagination buttons (lines 403-430).

    Conventions of the embedding.

    - The ten [useState] cells of [App] are the fields of one record
      [State]; a handler is a function on [State], applied to the state of
      the latest render: the variables it closes over ([pages],
      [currentPage], [undoStack], ...) are the fields of that state.
    - A setter that is given a function does not run it at the call: the
      updaters queued by one handler run at the next render, cell by cell
      in the order of the [useState] calls (lines 30-41).  This shows in
      [handleMouseDown] alone.  It calls [setIsDrawing(true)] first, so its
      two updaters are queued; the updater of [pages] (third cell) runs
      before the updater of [undoStack] (fourth cell), and it pushes the new
      element onto an array of the entry of the current page in place.  The
      updater of [undoStack] then copies the arrays of [pages[currentPage]],
      the very entry that was pushed to: the snapshot it builds holds the
      new element.  In every other handler the order of the updaters makes
      no difference.  Each updater is taken to run once per update, as it
      does outside React's strict mode.
    - When [isDrawing] is already set at a pointer-down,
      [setIsDrawing(true)] changes nothing and may queue nothing; if the
      component has no other update pending, React then runs the updater of
      [undoStack] at the call of [setUndoStack], before the updater of
      [pages] pushes.  Whether it does depends on React's bookkeeping, which
      is not modelled: [handleMouseDown] is the handler with its updaters
      queued, [handleMouseDownEager] the handler with the updater of
      [undoStack] run at the call, and [reachable] admits the second
      wherever [isDrawing] is set.  The runs of [run] take the first
      throughout; what is proved about the content of the pushed snapshot
      is proved for pointer-downs with [isDrawing] unset, where the first
      is what happens.
    - Line and shape objects are shared, not copied: the spread
      [[...lines]] copies an array and keeps its elements.  A list of the
      state therefore holds each element with its identity, a [Ref], next to
      its value, and an assignment to an object ([handleMouseMove], lines
      96 and 100-101) writes the new value wherever that identity occurs,
      in every page and in every snapshot of both stacks.  A pointer-down
      creates its object under an identity that occurs nowhere in the
      state.  The arrays themselves are never shared between two places.
    - JavaScript numbers are IEEE 754 doubles: coordinates, extents and
      thickness are primitive [float]s.  Page numbers index the [pages]
      object and are integers ([Z]); [pages] is a finite map.
    - [undoStack.pop()] and [redoStack.pop()] shorten the array held by the
      state cell in place; they are modelled as an update of that cell.
    - Reading a property of [undefined] throws a [TypeError]:
      [handleMouseMove], the only handler that can do so, returns an
      [option], [None] standing for the exception. *)

From Stdlib Require Import Floats ZArith List String.
From stdpp Require Import gmap list.

Local Open Scope Z_scope.

(** ** Data model *)

(** The tool identifiers of the tool bar (lines 364-386). *)
Inductive Tool : Set := SCRIBBLE | ARROW | RECTANGLE | CIRCLE.

(** What [stage.getPointerPosition()] returns when it is not null. *)
Module Pos.
Record t : Set := mk { x : float; y : float }.
End Pos.

(** [{ points: [...], thickness }] (line 66). *)
Module Line.
Record t : Set := mk { points : list float; thickness : float }.
End Line.

(** [{ type, x, y, width, height, thickness }] (lines 68-75). *)
Module Shape.
Record t : Set := mk {
  type : Tool;
  x : float;
  y : float;
  width : float;
  height : float;
  thickness : float
}.
End Shape.

(** The identity of a line or shape object. *)
Abbreviation Ref := nat.

(** The element type of a page's [actions] array: the code only ever stores
    the empty array there. *)
Inductive Action : Set := .

(** A history entry [{ lines, shapes }] (lines 52-55, 117-120, 138-141):
    two arrays of objects. *)
Module Snapshot.
Record t : Set := mk {
  lines : list (Ref * Line.t);
  shapes : list (Ref * Shape.t)
}.
End Snapshot.

(** An entry of [pages].  [actions] is [Some []] in the entries built by
    lines 33, 59-63, 155, 165 and 175 and absent ([None]) in the entries
    built by [undoAction] and [redoAction]. *)
Module Page.
Record t : Set := mk {
  lines : list (Ref * Line.t);
  shapes : list (Ref * Shape.t);
  actions : option (list Action)
}.
End Page.

(** The file handle [e.target.files[0]], reduced to its name. *)
Definition File : Set := string.

(** The [useState] cells of [App] (lines 30-41). *)
Record State : Type := mkState {
  isDrawing : bool;
  currentPage : Z;
  pages : gmap Z Page.t;
  undoStack : list Snapshot.t;
  redoStack : list Snapshot.t;
  numPages : Z;
  pdfFile : option File;
  selectedTool : Tool;
  fillColor : string;
  thickness : float
}.

(** [{ lines: [], shapes: [], actions: [] }] *)
Definition emptyPage : Page.t := Page.mk [] [] (Some []).

(** [{ lines: [], shapes: [] }] *)
Definition emptySnapshot : Snapshot.t := Snapshot.mk [] [].

(** The initial values of the cells. *)
Definition initialState : State :=
  {| isDrawing := false;
     currentPage := 1;
     pages := {[ 1 := emptyPage ]};
     undoStack := [emptySnapshot];
     redoStack := [];
     numPages := 0;
     pdfFile := None;
     selectedTool := SCRIBBLE;
     fillColor := "#000000";
     thickness := 2%float |}.

(** ** The setters *)

Definition setIsDrawing (v : bool) (s : State) : State :=
  mkState v (currentPage s) (pages s) (undoStack s) (redoStack s)
          (numPages s) (pdfFile s) (selectedTool s) (fillColor s) (thickness s).

Definition setCurrentPage (v : Z) (s : State) : State :=
  mkState (isDrawing s) v (pages s) (undoStack s) (redoStack s)
          (numPages s) (pdfFile s) (selectedTool s) (fillColor s) (thickness s).

Definition setPages (f : gmap Z Page.t -> gmap Z Page.t) (s : State) : State :=
  mkState (isDrawing s) (currentPage s) (f (pages s)) (undoStack s) (redoStack s)
          (numPages s) (pdfFile s) (selectedTool s) (fillColor s) (thickness s).

Definition setUndoStack (f : list Snapshot.t -> list Snapshot.t) (s : State) : State :=
  mkState (isDrawing s) (currentPage s) (pages s) (f (undoStack s)) (redoStack s)
          (numPages s) (pdfFile s) (selectedTool s) (fillColor s) (thickness s).

Definition setRedoStack (f : list Snapshot.t -> list Snapshot.t) (s : State) : State :=
  mkState (isDrawing s) (currentPage s) (pages s) (undoStack s) (f (redoStack s))
          (numPages s) (pdfFile s) (selectedTool s) (fillColor s) (thickness s).

Definition setNumPages (v : Z) (s : State) : State :=
  mkState (isDrawing s) (currentPage s) (pages s) (undoStack s) (redoStack s)
          v (pdfFile s) (selectedTool s) (fillColor s) (thickness s).

Definition setPdfFile (v : option File) (s : State) : State :=
  mkState (isDrawing s) (currentPage s) (pages s) (undoStack s) (redoStack s)
          (numPages s) v (selectedTool s) (fillColor s) (thickness s).

Definition setSelectedTool (v : Tool) (s : State) : State :=
  mkState (isDrawing s) (currentPage s) (pages s) (undoStack s) (redoStack s)
          (numPages s) (pdfFile s) v (fillColor s) (thickness s).

(** ** Reading the pages *)

(** [pgs[page]?.lines || []] and [pgs[page]?.shapes || []], as values. *)
Definition linesOf (pgs : gmap Z Page.t) (page : Z) : list Line.t :=
  match pgs !! page with
  | Some p => map snd (Page.lines p)
  | None => []
  end.

Definition shapesOf (pgs : gmap Z Page.t) (page : Z) : list Shape.t :=
  match pgs !! page with
  | Some p => map snd (Page.shapes p)
  | None => []
  end.

(** [currentLines] and [currentShapes] (lines 201-202). *)
Definition currentLines (s : State) : list Line.t := linesOf (pages s) (currentPage s).
Definition currentShapes (s : State) : list Shape.t := shapesOf (pages s) (currentPage s).

(** The object literal that the three history pushes build:
    [{ lines: [...(pgs[page]?.lines || [])],
       shapes: [...(pgs[page]?.shapes || [])] }], new arrays of the same
    objects. *)
Definition snapshotOf (pgs : gmap Z Page.t) (page : Z) : Snapshot.t :=
  match pgs !! page with
  | Some p => Snapshot.mk (Page.lines p) (Page.shapes p)
  | None => Snapshot.mk [] []
  end.

(** ** Objects *)

(** Every identity that occurs in the state. *)
Definition pageRefs (pg : Page.t) : list Ref :=
  map fst (Page.lines pg) ++ map fst (Page.shapes pg).

Definition snapshotRefs (snap : Snapshot.t) : list Ref :=
  map fst (Snapshot.lines snap) ++ map fst (Snapshot.shapes snap).

Definition allRefs (s : State) : list Ref :=
  (map_to_list (pages s) ≫= fun kv => pageRefs (snd kv))
    ++ (undoStack s ≫= snapshotRefs)
    ++ (redoStack s ≫= snapshotRefs).

(** The identity of the object that an object literal creates: one that
    occurs nowhere in the state. *)
Definition freshRef (s : State) : Ref := S (max_list (allRefs s)).

(** Assigning the value [v] to the object [r], seen through a list that
    may hold it. *)
Definition writeObject {A : Type} (r : Ref) (v : A) (objs : list (Ref * A))
  : list (Ref * A) :=
  map (fun o => if Nat.eqb (fst o) r then (r, v) else o) objs.

(** [lastLine.points = ...] on the line object [r] (line 96), seen from
    everywhere it is held. *)
Definition assignLine (r : Ref) (v : Line.t) (s : State) : State :=
  mkState (isDrawing s) (currentPage s)
          ((fun pg => Page.mk (writeObject r v (Page.lines pg)) (Page.shapes pg)
                              (Page.actions pg)) <$> pages s)
          (map (fun snap => Snapshot.mk (writeObject r v (Snapshot.lines snap))
                                        (Snapshot.shapes snap)) (undoStack s))
          (map (fun snap => Snapshot.mk (writeObject r v (Snapshot.lines snap))
                                        (Snapshot.shapes snap)) (redoStack s))
          (numPages s) (pdfFile s) (selectedTool s) (fillColor s) (thickness s).

(** [lastShape.width = ...; lastShape.height = ...] on the shape object
    [r] (lines 100-101), seen from everywhere it is held. *)
Definition assignShape (r : Ref) (v : Shape.t) (s : State) : State :=
  mkState (isDrawing s) (currentPage s)
          ((fun pg => Page.mk (Page.lines pg) (writeObject r v (Page.shapes pg))
                              (Page.actions pg)) <$> pages s)
          (map (fun snap => Snapshot.mk (Snapshot.lines snap)
                                        (writeObject r v (Snapshot.shapes snap)))
               (undoStack s))
          (map (fun snap => Snapshot.mk (Snapshot.lines snap)
                                        (writeObject r v (Snapshot.shapes snap)))
               (redoStack s))
          (numPages s) (pdfFile s) (selectedTool s) (fillColor s) (thickness s).

(** ** Events *)

(** [e.target.getStage()] and [stage.getPointerPosition()], either of which
    may be null. *)
Record Stage : Set := { getPointerPosition : option Pos.t }.
Record MouseEvent : Set := { getStage : option Stage }.

(** A pointer event over the stage at position [p]. *)
Definition pointerAt (p : Pos.t) : MouseEvent :=
  {| getStage := Some {| getPointerPosition := Some p |} |}.

(** [e.target.files] of the file input. *)
Record ChangeEvent : Set := { files : list File }.

(** ** Handlers *)

(** [arr.pop()] on a non-empty array: the removed last element and what is
    left; [None] on the empty array. *)
Definition pop {A : Type} (arr : list A) : option (A * list A) :=
  match last arr with
  | Some a => Some (a, removelast arr)
  | None => None
  end.

(** The setters are listed in the order in which their effects take place
    at the next render: [pages] before [undoStack].  The updater of [pages]
    pushes onto an array of [prevPages[currentPage]] in place (or of a new
    entry, when there is none); the updater of [undoStack] copies the arrays
    of [pages[currentPage]] after that push, and finds none when the entry
    is new. *)
Definition handleMouseDown (e : MouseEvent) (s : State) : State :=
  match getStage e with
  | None => s
  | Some stage =>
    match getPointerPosition stage with
    | None => s
    | Some pos =>
      let s1 := setIsDrawing true s in
      let s2 :=
        setPages
          (fun prevPages =>
             let currentPageData := default emptyPage (prevPages !! currentPage s) in
             let currentPageData :=
               match selectedTool s with
               | SCRIBBLE =>
                 Page.mk
                   (Page.lines currentPageData
                      ++ [(freshRef s, Line.mk [Pos.x pos; Pos.y pos] (thickness s))])
                   (Page.shapes currentPageData)
                   (Page.actions currentPageData)
               | tool =>
                 Page.mk
                   (Page.lines currentPageData)
                   (Page.shapes currentPageData
                      ++ [(freshRef s,
                           Shape.mk tool (Pos.x pos) (Pos.y pos) 0 0 (thickness s))])
                   (Page.actions currentPageData)
               end in
             <[currentPage s := currentPageData]> prevPages) s1 in
      let s3 :=
        setUndoStack
          (fun prevUndoStack =>
             prevUndoStack
               ++ [match pages s !! currentPage s with
                   | Some _ => snapshotOf (pages s2) (currentPage s)
                   | None => Snapshot.mk [] []
                   end]) s2 in
      setRedoStack (fun _ => []) s3
    end
  end.

(** The same handler when the updater of [undoStack] runs at the call of
    [setUndoStack]: the arrays of [pages[currentPage]] are copied before the
    updater of [pages] pushes the new element onto one of them. *)
Definition handleMouseDownEager (e : MouseEvent) (s : State) : State :=
  match getStage e with
  | None => s
  | Some stage =>
    match getPointerPosition stage with
    | None => s
    | Some pos =>
      let s1 := setIsDrawing true s in
      let s2 :=
        setUndoStack
          (fun prevUndoStack =>
             prevUndoStack ++ [snapshotOf (pages s) (currentPage s)]) s1 in
      let s3 :=
        setPages
          (fun prevPages =>
             let currentPageData := default emptyPage (prevPages !! currentPage s) in
             let currentPageData :=
               match selectedTool s with
               | SCRIBBLE =>
                 Page.mk
                   (Page.lines currentPageData
                      ++ [(freshRef s, Line.mk [Pos.x pos; Pos.y pos] (thickness s))])
                   (Page.shapes currentPageData)
                   (Page.actions currentPageData)
               | tool =>
                 Page.mk
                   (Page.lines currentPageData)
                   (Page.shapes currentPageData
                      ++ [(freshRef s,
                           Shape.mk tool (Pos.x pos) (Pos.y pos) 0 0 (thickness s))])
                   (Page.actions currentPageData)
               end in
             <[currentPage s := currentPageData]> prevPages) s2 in
      setRedoStack (fun _ => []) s3
    end
  end.

(** Lines 91-104.  The updater reads the entry of the current page and the
    last element of the list the selected tool writes to, either of which may
    be [undefined], and assigns to that element; the [pages] it returns has
    the same entries.  On an empty array the source reads index -1 and the
    embedding index 0: there is no element at either. *)
Definition handleMouseMove (e : MouseEvent) (s : State) : option State :=
  if negb (isDrawing s) then Some s else
  match getStage e with
  | None => Some s
  | Some stage =>
    match getPointerPosition stage with
    | None => Some s
    | Some point =>
      match pages s !! currentPage s with
      | None => None
      | Some currentPageData =>
        match selectedTool s with
        | SCRIBBLE =>
          let lines := Page.lines currentPageData in
          match lines !! (length lines - 1)%nat with
          | None => None
          | Some (r, lastLine) =>
            Some (assignLine r
                    (Line.mk (Line.points lastLine ++ [Pos.x point; Pos.y point])
                             (Line.thickness lastLine)) s)
          end
        | _ =>
          let shapes := Page.shapes currentPageData in
          match shapes !! (length shapes - 1)%nat with
          | None => None
          | Some (r, lastShape) =>
            Some (assignShape r
                    (Shape.mk (Shape.type lastShape) (Shape.x lastShape)
                              (Shape.y lastShape)
                              (Pos.x point - Shape.x lastShape)%float
                              (Pos.y point - Shape.y lastShape)%float
                              (Shape.thickness lastShape)) s)
          end
        end
      end
    end
  end.

Definition handleMouseUp (s : State) : State := setIsDrawing false s.

Definition undoAction (s : State) : State :=
  match pop (undoStack s) with
  | None => s
  | Some (lastState, popped) =>
    let s0 := setUndoStack (fun _ => popped) s in
    let s1 :=
      setRedoStack
        (fun prevRedoStack =>
           prevRedoStack ++ [snapshotOf (pages s) (currentPage s)]) s0 in
    setPages
      (fun prevPages =>
         <[currentPage s :=
             Page.mk (Snapshot.lines lastState) (Snapshot.shapes lastState) None]>
           prevPages) s1
  end.

Definition redoAction (s : State) : State :=
  match pop (redoStack s) with
  | None => s
  | Some (lastState, popped) =>
    let s0 := setRedoStack (fun _ => popped) s in
    let s1 :=
      setUndoStack
        (fun prevUndoStack =>
           prevUndoStack ++ [snapshotOf (pages s) (currentPage s)]) s0 in
    setPages
      (fun prevPages =>
         <[currentPage s :=
             Page.mk (Snapshot.lines lastState) (Snapshot.shapes lastState) None]>
           prevPages) s1
  end.

Definition resetCanvas (s : State) : State :=
  let s := setPages (fun _ => {[ 1 := emptyPage ]}) s in
  let s := setUndoStack (fun _ => [emptySnapshot]) s in
  let s := setRedoStack (fun _ => []) s in
  setCurrentPage 1 s.

Definition clearCanvas (s : State) : State :=
  let s1 := setPages (fun prevPages => <[currentPage s := emptyPage]> prevPages) s in
  let s2 := setUndoStack (fun _ => [emptySnapshot]) s1 in
  setRedoStack (fun _ => []) s2.

Definition navigatePage (page : Z) (s : State) : State :=
  let s1 :=
    match pages s !! page with
    | None => setPages (fun prevPages => <[page := emptyPage]> prevPages) s
    | Some _ => s
    end in
  setCurrentPage page s1.

Definition handleFileChange (e : ChangeEvent) (s : State) : State :=
  match files e !! 0%nat with
  | Some file =>
    let s := setPdfFile (Some file) s in
    let s := setNumPages 0 s in
    let s := setCurrentPage 1 s in
    resetCanvas s
  | None => s
  end.

Definition onDocumentLoadSuccess (n : Z) (s : State) : State := setNumPages n s.

(** [handleToolSelect] of the tool bar (lines 351-353). *)
Definition handleToolSelect (toolId : Tool) (s : State) : State :=
  setSelectedTool toolId s.

(** ** Runs of the component *)

(** What can happen to the mounted component.  The pagination buttons call
    [navigatePage] with [currentPage - 1] and [currentPage + 1]. *)
Inductive Event : Type :=
| EvMouseDown (e : MouseEvent)
| EvMouseMove (e : MouseEvent)
| EvMouseUp
| EvUndo
| EvRedo
| EvClearAll
| EvNavigate (page : Z)
| EvFileChange (e : ChangeEvent)
| EvToolSelect (toolId : Tool)
| EvLoadSuccess (n : Z).

Definition handle (ev : Event) (s : State) : option State :=
  match ev with
  | EvMouseDown e => Some (handleMouseDown e s)
  | EvMouseMove e => handleMouseMove e s
  | EvMouseUp => Some (handleMouseUp s)
  | EvUndo => Some (undoAction s)
  | EvRedo => Some (redoAction s)
  | EvClearAll => Some (clearCanvas s)
  | EvNavigate page => Some (navigatePage page s)
  | EvFileChange e => Some (handleFileChange e s)
  | EvToolSelect toolId => Some (handleToolSelect toolId s)
  | EvLoadSuccess n => Some (onDocumentLoadSuccess n s)
  end.

Fixpoint run (evs : list Event) (s : State) : option State :=
  match evs with
  | [] => Some s
  | ev :: evs =>
    match handle ev s with
    | Some s' => run evs s'
    | None => None
    end
  end.

(** One step of the component: a handler that returns, or a pointer-down
    whose [undoStack] updater runs at the call, which can only happen while
    [isDrawing] is set. *)
Inductive step : State -> State -> Prop :=
| step_handle (ev : Event) (s s' : State) :
    handle ev s = Some s' -> step s s'
| step_eager (e : MouseEvent) (s : State) :
    isDrawing s = true -> step s (handleMouseDownEager e s).

(** The states the component can be in. *)
Inductive reachable : State -> Prop :=
| reachable_initial : reachable initialState
| reachable_step (s s' : State) : reachable s -> step s s' -> reachable s'.

(** One completed draw: the tool chosen for it, the pointer-down position,
    the pointer-move events of the drag, and the pointer-up. *)
Record Draw : Set := {
  drawTool : Tool;
  drawStart : Pos.t;
  drawMoves : list MouseEvent
}.

Definition drawEvents (d : Draw) : list Event :=
  EvToolSelect (drawTool d)
    :: EvMouseDown (pointerAt (drawStart d))
    :: map EvMouseMove (drawMoves d) ++ [EvMouseUp].


(** Strokes plus shapes stored for [page]. *)
Definition stored (s : State) (page : Z) : nat :=
  (length (linesOf (pages s) page) + length (shapesOf (pages s) page))%nat.

(** Strokes plus shapes committed on [page]: those stored, less the draft
    while a draw is active, the element that its pointer-down appended to
    the current page and that the pointer-up has not yet released. *)
Definition committed (s : State) (page : Z) : nat :=
  if isDrawing s && bool_decide (page = currentPage s)
  then pred (stored s page)
  else stored s page.

(** Two draws used in the worked scenarios: a stroke from (10,10) through
    (20,30), and a rectangle begun at (50,50) and dragged to (10,10). *)
Definition strokeA : Draw :=
  {| drawTool := SCRIBBLE;
     drawStart := Pos.mk 10 10;
     drawMoves := [pointerAt (Pos.mk 20 30)] |}.

Definition rectangleB : Draw :=
  {| drawTool := RECTANGLE;
     drawStart := Pos.mk 50 50;
     drawMoves := [pointerAt (Pos.mk 10 10)] |}.

(** A state in which a pointer-move does not throw: the list of the
    current page that the selected tool writes to is not empty. *)
Definition movable (s : State) : Prop :=
  match selectedTool s with
  | SCRIBBLE => currentLines s ≠ []
  | _ => currentShapes s ≠ []
  end.

(** ** Pagination *)

(** [PaginationComponent] (lines 403-430) on the [currentPage] and
    [numPages] of the render.  [numPages ? ... : false] takes the second
    branch when [numPages] is 0. *)
Definition isFirstPage (s : State) : bool := currentPage s =? 1.

Definition isLastPage (s : State) : bool :=
  if numPages s =? 0 then false else currentPage s =? numPages s.

(** The [onClick] of the Previous and of the Next button (lines 412, 423);
    a disabled button does nothing either. *)
Definition previousClick (s : State) : State :=
  if isFirstPage s then s else navigatePage (currentPage s - 1) s.

Definition nextClick (s : State) : State :=
  if isLastPage s then s else navigatePage (currentPage s + 1) s.

Inductive PageClick : Set := Previous | Next.

Definition pageClick (c : PageClick) (s : State) : State :=
  match c with
  | Previous => previousClick s
  | Next => nextClick s
  end.

Definition pageClicks (cs : list PageClick) (s : State) : State :=
  fold_left (fun s c => pageClick c s) cs s.

(** ** Rendering *)

(** The canvas nodes that the two [map] callbacks of the layer return
    (lines 267-321), with the props they are given; the React [key] is left
    out.  No line or shape object of the code has a [color], so
    [line.color || fillColor] and [shape.color || fillColor] are
    [fillColor]. *)
Inductive Node : Set :=
| KonvaLine (points : list float) (stroke : string) (strokeWidth : float)
            (tension : float) (lineCap : string)
| KonvaCircle (x y radius : float) (stroke : string) (strokeWidth : float)
| KonvaRect (x y width height : float) (stroke : string) (strokeWidth : float).

Definition renderLine (fill : string) (line : Line.t) : Node :=
  KonvaLine (Line.points line) fill (Line.thickness line) 0.5 "round".

(** The [switch] on [shape.type]; [None] is the [null] of its [default]. *)
Definition renderShape (fill : string) (shape : Shape.t) : option Node :=
  match Shape.type shape with
  | CIRCLE =>
    Some (KonvaCircle (Shape.x shape) (Shape.y shape) (abs (Shape.width shape))
                      fill (Shape.thickness shape))
  | RECTANGLE =>
    Some (KonvaRect (Shape.x shape) (Shape.y shape)
                    (abs (Shape.width shape)) (abs (Shape.height shape))
                    fill (Shape.thickness shape))
  | ARROW =>
    Some (KonvaLine [Shape.x shape; Shape.y shape;
                     (Shape.x shape + Shape.width shape)%float;
                     (Shape.y shape + Shape.height shape)%float]
                    fill (Shape.thickness shape) 0.5 "round")
  | SCRIBBLE => None
  end.

(** ** Vocabulary of the properties *)

(** The pointer position an event carries, if any. *)
Definition pointerOf (e : MouseEvent) : option Pos.t :=
  match getStage e with
  | Some stage => getPointerPosition stage
  | None => None
  end.

(** The coordinates of the positions carried by a list of events, in
    order. *)
Definition coordsOf (es : list MouseEvent) : list float :=
  flat_map (fun e => match pointerOf e with
                     | Some p => [Pos.x p; Pos.y p]
                     | None => []
                     end) es.

(** The last position carried by a list of events, [acc] when none carries
    one. *)
Definition lastPointerFrom (acc : option Pos.t) (es : list MouseEvent) : option Pos.t :=
  fold_left (fun acc e => match pointerOf e with
                          | Some p => Some p
                          | None => acc
                          end) es acc.

(** A shape with its extents set from the pointer [p], as lines 100-101
    do. *)
Definition dragTo (sh : Shape.t) (p : Pos.t) : Shape.t :=
  Shape.mk (Shape.type sh) (Shape.x sh) (Shape.y sh)
           (Pos.x p - Shape.x sh)%float (Pos.y p - Shape.y sh)%float
           (Shape.thickness sh).

Definition dragToLast (sh : Shape.t) (last : option Pos.t) : Shape.t :=
  match last with
  | Some p => dragTo sh p
  | None => sh
  end.

(** The state with the entry of its current page rebuilt from the lines
    and shapes it holds, without [actions]: what undo and redo leave. *)
Definition withoutActions (s : State) : State :=
  setPages
    (fun prevPages =>
       <[currentPage s :=
           Page.mk (Snapshot.lines (snapshotOf (pages s) (currentPage s)))
                   (Snapshot.shapes (snapshotOf (pages s) (currentPage s)))
                   None]> prevPages) s.

(** Well-formed elements: a line holds coordinate pairs, at least one; a
    shape has the type of a shape tool; both have the one thickness the
    component ever uses. *)
Definition lineOk (l : Line.t) : Prop :=
  Nat.even (length (Line.points l)) = true
  ∧ (2 ≤ length (Line.points l))%nat
  ∧ Line.thickness l = 2%float.

Definition shapeOk (sh : Shape.t) : Prop :=
  Shape.type sh ≠ SCRIBBLE ∧ Shape.thickness sh = 2%float.

Definition pageOk (pg : Page.t) : Prop :=
  Forall lineOk (map snd (Page.lines pg)) ∧ Forall shapeOk (map snd (Page.shapes pg)).

Definition snapshotOk (snap : Snapshot.t) : Prop :=
  Forall lineOk (map snd (Snapshot.lines snap))
  ∧ Forall shapeOk (map snd (Snapshot.shapes snap)).

(** The invariant of the component. *)
Definition wellFormed (s : State) : Prop :=
  is_Some (pages s !! currentPage s)
  ∧ thickness s = 2%float
  ∧ fillColor s = "#000000"%string
  ∧ map_Forall (fun _ pg => pageOk pg) (pages s)
  ∧ Forall snapshotOk (undoStack s)
  ∧ Forall snapshotOk (redoStack s).

(** Events of the undo and redo buttons only. *)
Definition isHistoryEvent (ev : Event) : bool :=
  match ev with
  | EvUndo | EvRedo => true
  | _ => false
  end.

(** A state used to instantiate the properties below: a stroke begun at
    (10,10), then a rectangle begun at (50,50), both released at once. *)
Definition sketched : State :=
  handleMouseUp
    (handleMouseDown (pointerAt (Pos.mk 50 50))
       (handleToolSelect RECTANGLE
          (handleMouseUp (handleMouseDown (pointerAt (Pos.mk 10 10)) initialState)))).

(** The state a pointer-down leaves under the SCRIBBLE tool, with [v] for
    the value of the line it creates: handing [v] in lets the same state be
    read again after the drag has changed that line. *)
Definition beginLine (v : Line.t) (s : State) : State :=
  mkState true (currentPage s)
          (<[currentPage s :=
               Page.mk (Page.lines (default emptyPage (pages s !! currentPage s))
                          ++ [(freshRef s, v)])
                       (Page.shapes (default emptyPage (pages s !! currentPage s)))
                       (Page.actions (default emptyPage (pages s !! currentPage s)))]>
             (pages s))
          (undoStack s
             ++ [match pages s !! currentPage s with
                 | Some pg => Snapshot.mk (Page.lines pg ++ [(freshRef s, v)]) (Page.shapes pg)
                 | None => Snapshot.mk [] []
                 end])
          []
          (numPages s) (pdfFile s) (selectedTool s) (fillColor s) (thickness s).

(** The same under a shape tool, with [v] for the value of the shape. *)
Definition beginShape (v : Shape.t) (s : State) : State :=
  mkState true (currentPage s)
          (<[currentPage s :=
               Page.mk (Page.lines (default emptyPage (pages s !! currentPage s)))
                       (Page.shapes (default emptyPage (pages s !! currentPage s))
                          ++ [(freshRef s, v)])
                       (Page.actions (default emptyPage (pages s !! currentPage s)))]>
             (pages s))
          (undoStack s
             ++ [match pages s !! currentPage s with
                 | Some pg => Snapshot.mk (Page.lines pg) (Page.shapes pg ++ [(freshRef s, v)])
                 | None => Snapshot.mk [] []
                 end])
          []
          (numPages s) (pdfFile s) (selectedTool s) (fillColor s) (thickness s).

(** ** Basic facts *)

Lemma pop_snoc {A : Type} (arr : list A) (a : A) : pop (arr ++ [a]) = Some (a, arr).
Proof. unfold pop. by rewrite last_snoc, removelast_last. Qed.

Lemma pop_nil {A : Type} : pop (@nil A) = None.
Proof. reflexivity. Qed.

Lemma nonempty_snoc {A : Type} (arr : list A) :
  arr ≠ [] → ∃ front a, arr = front ++ [a].
Proof.
  intros Hne. destruct (exists_last Hne) as (front & a & ->). eauto.
Qed.

Lemma pop_None {A : Type} (arr : list A) : pop arr = None ↔ arr = [].
Proof.
  split; [|intros ->; reflexivity].
  intros Hpop. destruct arr as [|a0 arr]; [done|].
  destruct (nonempty_snoc (a0 :: arr)) as (front & a & Heq); [done|].
  rewrite Heq, pop_snoc in Hpop. discriminate.
Qed.

Lemma nonempty_length {A : Type} (l : list A) : (1 ≤ length l)%nat → l ≠ [].
Proof. destruct l; simpl; [lia|done]. Qed.

Lemma lookup_last_index {A : Type} (front : list A) (a : A) :
  (front ++ [a]) !! (length (front ++ [a]) - 1)%nat = Some a.
Proof.
  rewrite length_app. simpl.
  replace (length front + 1 - 1)%nat with (length front) by lia.
  apply list_lookup_middle. reflexivity.
Qed.

Lemma linesOf_insert pgs page pg :
  linesOf (<[page := pg]> pgs) page = map snd (Page.lines pg).
Proof. unfold linesOf. by rewrite lookup_insert_eq. Qed.

Lemma shapesOf_insert pgs page pg :
  shapesOf (<[page := pg]> pgs) page = map snd (Page.shapes pg).
Proof. unfold shapesOf. by rewrite lookup_insert_eq. Qed.

Lemma linesOf_insert_ne pgs page q pg :
  page ≠ q → linesOf (<[page := pg]> pgs) q = linesOf pgs q.
Proof. intros Hne. unfold linesOf. by rewrite lookup_insert_ne. Qed.

Lemma shapesOf_insert_ne pgs page q pg :
  page ≠ q → shapesOf (<[page := pg]> pgs) q = shapesOf pgs q.
Proof. intros Hne. unfold shapesOf. by rewrite lookup_insert_ne. Qed.

Lemma linesOf_default pgs page :
  map snd (Page.lines (default emptyPage (pgs !! page))) = linesOf pgs page.
Proof. unfold linesOf. by destruct (pgs !! page). Qed.

Lemma shapesOf_default pgs page :
  map snd (Page.shapes (default emptyPage (pgs !! page))) = shapesOf pgs page.
Proof. unfold shapesOf. by destruct (pgs !! page). Qed.

Lemma snapshotOf_lines pgs page :
  map snd (Snapshot.lines (snapshotOf pgs page)) = linesOf pgs page.
Proof. unfold snapshotOf, linesOf. by destruct (pgs !! page). Qed.

Lemma snapshotOf_shapes pgs page :
  map snd (Snapshot.shapes (snapshotOf pgs page)) = shapesOf pgs page.
Proof. unfold snapshotOf, shapesOf. by destruct (pgs !! page). Qed.

Lemma snapshotOf_insert pgs page pg :
  snapshotOf (<[page := pg]> pgs) page = Snapshot.mk (Page.lines pg) (Page.shapes pg).
Proof. unfold snapshotOf. by rewrite lookup_insert_eq. Qed.

Lemma snapshot_eta (snap : Snapshot.t) :
  Snapshot.mk (Snapshot.lines snap) (Snapshot.shapes snap) = snap.
Proof. by destruct snap. Qed.

Lemma line_eta (l : Line.t) : Line.mk (Line.points l) (Line.thickness l) = l.
Proof. by destruct l. Qed.

(** Every event that carries a pointer position is a [pointerAt]. *)
Lemma pointerAt_intro (e : MouseEvent) (stage : Stage) (p : Pos.t) :
  getStage e = Some stage → getPointerPosition stage = Some p → e = pointerAt p.
Proof.
  destruct e as [[[pp]|]]; simpl; [|discriminate].
  intros [= <-]; simpl. intros ->. reflexivity.
Qed.

Lemma pointerOf_Some (e : MouseEvent) (p : Pos.t) : pointerOf e = Some p → e = pointerAt p.
Proof.
  unfold pointerOf. destruct (getStage e) as [stage|] eqn:Hstage; [|discriminate].
  intros Hp. exact (pointerAt_intro e stage p Hstage Hp).
Qed.

Lemma setPages_id (s : State) : setPages (fun _ => pages s) s = s.
Proof. by destruct s. Qed.

Lemma run_app (evs1 evs2 : list Event) (s : State) :
  run (evs1 ++ evs2) s
  = match run evs1 s with Some s' => run evs2 s' | None => None end.
Proof.
  revert s. induction evs1 as [|ev evs1 IH]; intros s; simpl; [done|].
  destruct (handle ev s); [apply IH|done].
Qed.

(** *** Objects and their identities *)

Lemma writeObject_app {A : Type} (r : Ref) (v : A) (l1 l2 : list (Ref * A)) :
  writeObject r v (l1 ++ l2) = writeObject r v l1 ++ writeObject r v l2.
Proof. unfold writeObject. apply map_app. Qed.

Lemma writeObject_same {A : Type} (r : Ref) (v w : A) :
  writeObject r v [(r, w)] = [(r, v)].
Proof. unfold writeObject. simpl. by rewrite Nat.eqb_refl. Qed.

Lemma writeObject_fresh {A : Type} (r : Ref) (v : A) (l : list (Ref * A)) :
  r ∉ map fst l → writeObject r v l = l.
Proof.
  induction l as [|[r0 w] l IH]; simpl; [done|].
  intros Hnot. apply not_elem_of_cons in Hnot as [Hne Hnot].
  destruct (Nat.eqb_spec r0 r) as [->|_]; [done|].
  f_equal. by apply IH.
Qed.

Lemma writeObject_length {A : Type} (r : Ref) (v : A) (l : list (Ref * A)) :
  length (writeObject r v l) = length l.
Proof. unfold writeObject. apply length_map. Qed.

Lemma writeObject_Forall {A : Type} (P : A → Prop) (r : Ref) (v : A) (l : list (Ref * A)) :
  P v → Forall P (map snd l) → Forall P (map snd (writeObject r v l)).
Proof.
  intros Hv. induction l as [|[r0 w] l IH]; simpl; [done|].
  intros Hall. apply Forall_cons in Hall as [Hw Hall].
  apply Forall_cons. split; [|by apply IH].
  by destruct (r0 =? r)%nat.
Qed.

Lemma elem_of_allRefs_page (s : State) (q : Z) (pg : Page.t) (r : Ref) :
  pages s !! q = Some pg → r ∈ pageRefs pg → r ∈ allRefs s.
Proof.
  intros Hq Hr. unfold allRefs. apply elem_of_app. left.
  apply list_elem_of_bind. exists (q, pg). split; [exact Hr|].
  by apply elem_of_map_to_list.
Qed.

Lemma elem_of_allRefs_undo (s : State) (snap : Snapshot.t) (r : Ref) :
  snap ∈ undoStack s → r ∈ snapshotRefs snap → r ∈ allRefs s.
Proof.
  intros Hsnap Hr. unfold allRefs. apply elem_of_app. right.
  apply elem_of_app. left. apply list_elem_of_bind. eauto.
Qed.

Lemma elem_of_allRefs_redo (s : State) (snap : Snapshot.t) (r : Ref) :
  snap ∈ redoStack s → r ∈ snapshotRefs snap → r ∈ allRefs s.
Proof.
  intros Hsnap Hr. unfold allRefs. apply elem_of_app. right.
  apply elem_of_app. right. apply list_elem_of_bind. eauto.
Qed.

Lemma freshRef_fresh (s : State) : freshRef s ∉ allRefs s.
Proof.
  intros Hin. apply max_list_elem_of_le in Hin. unfold freshRef in Hin. lia.
Qed.

Lemma freshRef_page (s : State) (q : Z) (pg : Page.t) :
  pages s !! q = Some pg →
  (freshRef s ∉ map fst (Page.lines pg)) ∧ (freshRef s ∉ map fst (Page.shapes pg)).
Proof.
  intros Hq. split; intros Hin; apply (freshRef_fresh s);
    apply (elem_of_allRefs_page s q pg _ Hq); unfold pageRefs;
    apply elem_of_app; [by left|by right].
Qed.

Lemma freshRef_default (s : State) (q : Z) :
  (freshRef s ∉ map fst (Page.lines (default emptyPage (pages s !! q))))
  ∧ (freshRef s ∉ map fst (Page.shapes (default emptyPage (pages s !! q)))).
Proof.
  destruct (pages s !! q) as [pg|] eqn:Hq; simpl.
  - by apply (freshRef_page s q).
  - split; apply not_elem_of_nil.
Qed.

Lemma freshRef_undo (s : State) (snap : Snapshot.t) :
  snap ∈ undoStack s →
  (freshRef s ∉ map fst (Snapshot.lines snap))
  ∧ (freshRef s ∉ map fst (Snapshot.shapes snap)).
Proof.
  intros Hsnap. split; intros Hin; apply (freshRef_fresh s);
    apply (elem_of_allRefs_undo s snap _ Hsnap); unfold snapshotRefs;
    apply elem_of_app; [by left|by right].
Qed.

Lemma freshRef_redo (s : State) (snap : Snapshot.t) :
  snap ∈ redoStack s →
  (freshRef s ∉ map fst (Snapshot.lines snap))
  ∧ (freshRef s ∉ map fst (Snapshot.shapes snap)).
Proof.
  intros Hsnap. split; intros Hin; apply (freshRef_fresh s);
    apply (elem_of_allRefs_redo s snap _ Hsnap); unfold snapshotRefs;
    apply elem_of_app; [by left|by right].
Qed.

Lemma map_fixed {A : Type} (f : A → A) (l : list A) :
  (∀ x, x ∈ l → f x = x) → map f l = l.
Proof.
  induction l as [|a l IH]; simpl; [done|]. intros Hfix.
  rewrite (Hfix a) by apply list_elem_of_here.
  f_equal. apply IH. intros x Hx. apply Hfix. by apply list_elem_of_further.
Qed.

Lemma fmap_fixed (f : Page.t → Page.t) (pgs : gmap Z Page.t) :
  (∀ q pg, pgs !! q = Some pg → f pg = pg) → f <$> pgs = pgs.
Proof.
  intros Hfix. apply map_eq. intros q. rewrite lookup_fmap.
  destruct (pgs !! q) as [pg|] eqn:Hq; simpl; [|done].
  by rewrite (Hfix q pg Hq).
Qed.

(** *** Pointer-moves *)

Lemma handleMouseMove_idle (e : MouseEvent) (s : State) :
  isDrawing s = false ∨ pointerOf e = None → handleMouseMove e s = Some s.
Proof.
  unfold handleMouseMove, pointerOf. intros [Hidle|Hnone].
  - by rewrite Hidle.
  - destruct (negb (isDrawing s)); [done|].
    destruct (getStage e) as [stage|]; [|done]. by rewrite Hnone.
Qed.

(** What a pointer-move with a position does while [isDrawing] is set, with
    the last element of each list read by [last]. *)
Lemma handleMouseMove_drawing (p : Pos.t) (s : State) :
  isDrawing s = true →
  handleMouseMove (pointerAt p) s
  = match pages s !! currentPage s with
    | None => None
    | Some pg =>
      match selectedTool s with
      | SCRIBBLE =>
        match last (Page.lines pg) with
        | None => None
        | Some (r, l) =>
          Some (assignLine r (Line.mk (Line.points l ++ [Pos.x p; Pos.y p])
                                      (Line.thickness l)) s)
        end
      | _ =>
        match last (Page.shapes pg) with
        | None => None
        | Some (r, sh) => Some (assignShape r (dragTo sh p) s)
        end
      end
    end.
Proof.
  intros Hdrawing. unfold handleMouseMove. rewrite Hdrawing. simpl.
  destruct (pages s !! currentPage s) as [pg|]; [|done].
  rewrite !Nat.sub_1_r, <- !last_lookup. reflexivity.
Qed.

Lemma handleMouseMove_not_movable (p : Pos.t) (s : State) :
  isDrawing s = true → ¬ movable s → handleMouseMove (pointerAt p) s = None.
Proof.
  intros Hdrawing Hstuck. rewrite handleMouseMove_drawing by done.
  unfold movable, currentLines, currentShapes, linesOf, shapesOf in Hstuck.
  destruct (pages s !! currentPage s) as [pg|]; [|done].
  destruct (selectedTool s).
  - destruct (Page.lines pg); [done|]. by destruct Hstuck.
  - destruct (Page.shapes pg); [done|]. by destruct Hstuck.
  - destruct (Page.shapes pg); [done|]. by destruct Hstuck.
  - destruct (Page.shapes pg); [done|]. by destruct Hstuck.
Qed.

Lemma last_nonempty {A B : Type} (f : A → B) (l : list A) :
  map f l ≠ [] → ∃ a, last l = Some a.
Proof.
  intros Hne. destruct (nonempty_snoc l) as (front & a & ->).
  - intros ->. by apply Hne.
  - exists a. apply last_snoc.
Qed.

Lemma handleMouseMove_movable (e : MouseEvent) (s : State) :
  movable s → ∃ s', handleMouseMove e s = Some s'.
Proof.
  intros Hmov.
  destruct (isDrawing s) eqn:Hdrawing;
    [|rewrite handleMouseMove_idle by (left; done); eauto].
  destruct (pointerOf e) as [p|] eqn:Hp;
    [|rewrite handleMouseMove_idle by (right; done); eauto].
  rewrite (pointerOf_Some e p Hp), handleMouseMove_drawing by done.
  unfold movable, currentLines, currentShapes, linesOf, shapesOf in Hmov.
  destruct (pages s !! currentPage s) as [pg|]; [|by destruct (selectedTool s)].
  destruct (selectedTool s).
  - destruct (last_nonempty _ _ Hmov) as ([r l] & ->). eauto.
  - destruct (last_nonempty _ _ Hmov) as ([r sh] & ->). eauto.
  - destruct (last_nonempty _ _ Hmov) as ([r sh] & ->). eauto.
  - destruct (last_nonempty _ _ Hmov) as ([r sh] & ->). eauto.
Qed.

(** *** The state between a pointer-down and the pointer-up *)

Lemma handleMouseDown_beginLine (p : Pos.t) (s : State) :
  selectedTool s = SCRIBBLE →
  handleMouseDown (pointerAt p) s
  = beginLine (Line.mk [Pos.x p; Pos.y p] (thickness s)) s.
Proof.
  intros Htool. unfold handleMouseDown, beginLine. simpl.
  unfold setRedoStack, setUndoStack, setPages, setIsDrawing. simpl.
  destruct (selectedTool s); [|discriminate..].
  rewrite snapshotOf_insert. simpl.
  by destruct (pages s !! currentPage s).
Qed.

Lemma handleMouseDown_beginShape (p : Pos.t) (s : State) :
  selectedTool s ≠ SCRIBBLE →
  handleMouseDown (pointerAt p) s
  = beginShape (Shape.mk (selectedTool s) (Pos.x p) (Pos.y p) 0 0 (thickness s)) s.
Proof.
  intros Htool. unfold handleMouseDown, beginShape. simpl.
  unfold setRedoStack, setUndoStack, setPages, setIsDrawing. simpl.
  destruct (selectedTool s); [done|..]; rewrite snapshotOf_insert; simpl;
    by destruct (pages s !! currentPage s).
Qed.

Lemma assignLine_beginLine (v w : Line.t) (s : State) :
  assignLine (freshRef s) v (beginLine w s) = beginLine v s.
Proof.
  destruct (freshRef_default s (currentPage s)) as [Hfresh _].
  unfold assignLine, beginLine. simpl. f_equal.
  - rewrite fmap_insert. simpl.
    rewrite writeObject_app, writeObject_same, (writeObject_fresh _ _ _ Hfresh).
    f_equal. apply fmap_fixed. intros q pg Hq.
    destruct (freshRef_page s q pg Hq) as [Hl _].
    rewrite (writeObject_fresh _ _ _ Hl). by destruct pg.
  - rewrite map_app. simpl. f_equal.
    + apply map_fixed. intros snap Hsnap.
      destruct (freshRef_undo s snap Hsnap) as [Hl _].
      rewrite (writeObject_fresh _ _ _ Hl). by destruct snap.
    + destruct (pages s !! currentPage s) as [pg|] eqn:Hpg; simpl; [|done].
      destruct (freshRef_page s _ pg Hpg) as [Hl _].
      by rewrite writeObject_app, writeObject_same, (writeObject_fresh _ _ _ Hl).
Qed.

Lemma assignShape_beginShape (v w : Shape.t) (s : State) :
  assignShape (freshRef s) v (beginShape w s) = beginShape v s.
Proof.
  destruct (freshRef_default s (currentPage s)) as [_ Hfresh].
  unfold assignShape, beginShape. simpl. f_equal.
  - rewrite fmap_insert. simpl.
    rewrite writeObject_app, writeObject_same, (writeObject_fresh _ _ _ Hfresh).
    f_equal. apply fmap_fixed. intros q pg Hq.
    destruct (freshRef_page s q pg Hq) as [_ Hs].
    rewrite (writeObject_fresh _ _ _ Hs). by destruct pg.
  - rewrite map_app. simpl. f_equal.
    + apply map_fixed. intros snap Hsnap.
      destruct (freshRef_undo s snap Hsnap) as [_ Hs].
      rewrite (writeObject_fresh _ _ _ Hs). by destruct snap.
    + destruct (pages s !! currentPage s) as [pg|] eqn:Hpg; simpl; [|done].
      destruct (freshRef_page s _ pg Hpg) as [_ Hs].
      by rewrite writeObject_app, writeObject_same, (writeObject_fresh _ _ _ Hs).
Qed.

Lemma handleMouseMove_beginLine (p : Pos.t) (v : Line.t) (s : State) :
  selectedTool s = SCRIBBLE →
  handleMouseMove (pointerAt p) (beginLine v s)
  = Some (beginLine (Line.mk (Line.points v ++ [Pos.x p; Pos.y p]) (Line.thickness v)) s).
Proof.
  intros Htool. rewrite handleMouseMove_drawing by reflexivity.
  change (currentPage (beginLine v s)) with (currentPage s).
  change (selectedTool (beginLine v s)) with (selectedTool s).
  unfold beginLine at 1. simpl pages. rewrite lookup_insert_eq, Htool. simpl Page.lines.
  rewrite last_snoc. by rewrite assignLine_beginLine.
Qed.

Lemma handleMouseMove_beginShape (p : Pos.t) (v : Shape.t) (s : State) :
  selectedTool s ≠ SCRIBBLE →
  handleMouseMove (pointerAt p) (beginShape v s) = Some (beginShape (dragTo v p) s).
Proof.
  intros Htool. rewrite handleMouseMove_drawing by reflexivity.
  change (currentPage (beginShape v s)) with (currentPage s).
  change (selectedTool (beginShape v s)) with (selectedTool s).
  unfold beginShape at 1. simpl pages. rewrite lookup_insert_eq. simpl Page.shapes.
  rewrite last_snoc.
  destruct (selectedTool s); [done|..]; by rewrite assignShape_beginShape.
Qed.

Lemma run_moves_beginLine (es : list MouseEvent) (v : Line.t) (s : State) :
  selectedTool s = SCRIBBLE →
  run (map EvMouseMove es) (beginLine v s)
  = Some (beginLine (Line.mk (Line.points v ++ coordsOf es) (Line.thickness v)) s).
Proof.
  intros Htool. revert v. induction es as [|e es IH]; intros v.
  - simpl. by rewrite app_nil_r, line_eta.
  - simpl run. destruct (pointerOf e) as [p|] eqn:Hp.
    + rewrite (pointerOf_Some e p Hp), handleMouseMove_beginLine by done.
      rewrite IH. simpl. unfold coordsOf. simpl. unfold pointerOf. simpl.
      by rewrite <- app_assoc.
    + rewrite handleMouseMove_idle by (right; done). rewrite IH.
      unfold coordsOf. simpl. by rewrite Hp.
Qed.

Lemma lastPointerFrom_acc (acc : option Pos.t) (es : list MouseEvent) :
  lastPointerFrom acc es
  = match lastPointerFrom None es with
    | Some q => Some q
    | None => acc
    end.
Proof.
  revert acc. induction es as [|e es IH]; intros acc; [done|].
  unfold lastPointerFrom in *. simpl.
  destruct (pointerOf e) as [p|]; [|apply IH].
  rewrite (IH (Some p)).
  by destruct (fold_left _ es None).
Qed.

Lemma run_moves_beginShape (es : list MouseEvent) (v : Shape.t) (s : State) :
  selectedTool s ≠ SCRIBBLE →
  run (map EvMouseMove es) (beginShape v s)
  = Some (beginShape (dragToLast v (lastPointerFrom None es)) s).
Proof.
  intros Htool. revert v. induction es as [|e es IH]; intros v.
  - reflexivity.
  - simpl run. destruct (pointerOf e) as [p|] eqn:Hp.
    + rewrite (pointerOf_Some e p Hp), handleMouseMove_beginShape by done.
      rewrite IH.
      change (lastPointerFrom None (pointerAt p :: es))
        with (lastPointerFrom (Some p) es).
      rewrite (lastPointerFrom_acc (Some p)).
      by destruct (lastPointerFrom None es).
    + rewrite handleMouseMove_idle by (right; done). rewrite IH.
      unfold lastPointerFrom. simpl. by rewrite Hp.
Qed.

(** What the state between pointer-down and pointer-up shows. *)
Lemma beginLine_shows (v : Line.t) (s : State) :
  currentLines (beginLine v s) = currentLines s ++ [v]
  ∧ currentShapes (beginLine v s) = currentShapes s.
Proof.
  unfold currentLines, currentShapes, beginLine. simpl.
  rewrite linesOf_insert, shapesOf_insert. simpl.
  by rewrite map_app, linesOf_default, shapesOf_default.
Qed.

Lemma beginShape_shows (v : Shape.t) (s : State) :
  currentLines (beginShape v s) = currentLines s
  ∧ currentShapes (beginShape v s) = currentShapes s ++ [v].
Proof.
  unfold currentLines, currentShapes, beginShape. simpl.
  rewrite linesOf_insert, shapesOf_insert. simpl.
  by rewrite map_app, linesOf_default, shapesOf_default.
Qed.

(** *** What undo and redo do *)

Lemma undoAction_snoc (s : State) (front : list Snapshot.t) (lastState : Snapshot.t) :
  undoStack s = front ++ [lastState] →
  undoAction s =
    mkState (isDrawing s) (currentPage s)
            (<[currentPage s :=
                 Page.mk (Snapshot.lines lastState) (Snapshot.shapes lastState) None]>
               (pages s))
            front
            (redoStack s ++ [snapshotOf (pages s) (currentPage s)])
            (numPages s) (pdfFile s) (selectedTool s) (fillColor s) (thickness s).
Proof. intros Hst. unfold undoAction. rewrite Hst, pop_snoc. reflexivity. Qed.

Lemma redoAction_snoc (s : State) (front : list Snapshot.t) (lastState : Snapshot.t) :
  redoStack s = front ++ [lastState] →
  redoAction s =
    mkState (isDrawing s) (currentPage s)
            (<[currentPage s :=
                 Page.mk (Snapshot.lines lastState) (Snapshot.shapes lastState) None]>
               (pages s))
            (undoStack s ++ [snapshotOf (pages s) (currentPage s)])
            front
            (numPages s) (pdfFile s) (selectedTool s) (fillColor s) (thickness s).
Proof. intros Hst. unfold redoAction. rewrite Hst, pop_snoc. reflexivity. Qed.

Lemma undoAction_nil (s : State) : undoStack s = [] → undoAction s = s.
Proof. intros Hst. unfold undoAction. rewrite Hst. reflexivity. Qed.

Lemma redoAction_nil (s : State) : redoStack s = [] → redoAction s = s.
Proof. intros Hst. unfold redoAction. rewrite Hst. reflexivity. Qed.

(** Undo then redo, from any state with something to undo: the page is
    back, the undo stack has the same length and the redo stack is as it
    was. *)
Lemma undo_redo_any (s : State) :
  undoStack s ≠ [] →
  currentPage (redoAction (undoAction s)) = currentPage s
  ∧ currentLines (redoAction (undoAction s)) = currentLines s
  ∧ currentShapes (redoAction (undoAction s)) = currentShapes s
  ∧ redoStack (redoAction (undoAction s)) = redoStack s
  ∧ length (undoStack (redoAction (undoAction s))) = length (undoStack s).
Proof.
  intros Hne. destruct (nonempty_snoc _ Hne) as (front & lastState & Hst).
  rewrite (undoAction_snoc s front lastState Hst).
  erewrite redoAction_snoc by reflexivity.
  unfold currentLines, currentShapes. simpl.
  rewrite linesOf_insert, shapesOf_insert. simpl.
  rewrite snapshotOf_lines, snapshotOf_shapes, Hst, !length_app. simpl. done.
Qed.

Lemma undoAction_top (t : State) (front : list Snapshot.t) (snap : Snapshot.t) :
  undoStack t = front ++ [snap] →
  currentPage (undoAction t) = currentPage t
  ∧ undoStack (undoAction t) = front
  ∧ currentLines (undoAction t) = map snd (Snapshot.lines snap)
  ∧ currentShapes (undoAction t) = map snd (Snapshot.shapes snap)
  ∧ (∀ q, q ≠ currentPage t → pages (undoAction t) !! q = pages t !! q).
Proof.
  intros Hst. rewrite (undoAction_snoc t front snap Hst).
  unfold currentLines, currentShapes. simpl.
  rewrite linesOf_insert, shapesOf_insert.
  repeat (split; [done|]). intros q Hq. by rewrite lookup_insert_ne.
Qed.

(** *** Page navigation *)

Lemma navigatePage_currentPage (n : Z) (s : State) : currentPage (navigatePage n s) = n.
Proof. unfold navigatePage. by destruct (pages s !! n). Qed.

Lemma navigatePage_undoStack (n : Z) (s : State) :
  undoStack (navigatePage n s) = undoStack s.
Proof. unfold navigatePage. by destruct (pages s !! n). Qed.

Lemma navigatePage_redoStack (n : Z) (s : State) :
  redoStack (navigatePage n s) = redoStack s.
Proof. unfold navigatePage. by destruct (pages s !! n). Qed.

Lemma navigatePage_numPages (n : Z) (s : State) :
  numPages (navigatePage n s) = numPages s.
Proof. unfold navigatePage. by destruct (pages s !! n). Qed.


Lemma navigatePage_shows (n q : Z) (s : State) :
  linesOf (pages (navigatePage n s)) q = linesOf (pages s) q
  ∧ shapesOf (pages (navigatePage n s)) q = shapesOf (pages s) q.
Proof.
  unfold navigatePage. destruct (pages s !! n) as [pg|] eqn:Hn; [done|]. simpl.
  destruct (decide (n = q)) as [<-|Hne].
  - rewrite linesOf_insert, shapesOf_insert. unfold linesOf, shapesOf.
    by rewrite Hn.
  - by rewrite linesOf_insert_ne, shapesOf_insert_ne.
Qed.

(** *** Completed draws *)

(** The state in which a draw is, after its pointer-down and any
    pointer-moves: under SCRIBBLE the tool bar's choice [s0] with the line
    drawn so far, under a shape tool with the shape dragged so far. *)
Lemma run_down_moves_stroke (p : Pos.t) (es : list MouseEvent) (s : State) :
  selectedTool s = SCRIBBLE →
  run (EvMouseDown (pointerAt p) :: map EvMouseMove es) s
  = Some (beginLine (Line.mk ([Pos.x p; Pos.y p] ++ coordsOf es) (thickness s)) s).
Proof.
  intros Htool. simpl run. rewrite handleMouseDown_beginLine by done.
  by rewrite run_moves_beginLine.
Qed.

Lemma run_down_moves_shape (p : Pos.t) (es : list MouseEvent) (s : State) :
  selectedTool s ≠ SCRIBBLE →
  run (EvMouseDown (pointerAt p) :: map EvMouseMove es) s
  = Some (beginShape
            (dragToLast (Shape.mk (selectedTool s) (Pos.x p) (Pos.y p) 0 0 (thickness s))
                        (lastPointerFrom None es)) s).
Proof.
  intros Htool. simpl run. rewrite handleMouseDown_beginShape by done.
  by rewrite run_moves_beginShape.
Qed.

Lemma run_draw_stroke (d : Draw) (s : State) :
  drawTool d = SCRIBBLE →
  run (drawEvents d) s
  = Some (handleMouseUp
            (beginLine
               (Line.mk ([Pos.x (drawStart d); Pos.y (drawStart d)] ++ coordsOf (drawMoves d))
                        (thickness s))
               (handleToolSelect SCRIBBLE s))).
Proof.
  intros Htool. unfold drawEvents. rewrite Htool.
  change (run (EvToolSelect SCRIBBLE
                 :: EvMouseDown (pointerAt (drawStart d))
                 :: map EvMouseMove (drawMoves d) ++ [EvMouseUp]) s)
    with (run ((EvMouseDown (pointerAt (drawStart d)) :: map EvMouseMove (drawMoves d))
                 ++ [EvMouseUp]) (handleToolSelect SCRIBBLE s)).
  rewrite run_app, run_down_moves_stroke by reflexivity. reflexivity.
Qed.

Lemma run_draw_shape (d : Draw) (s : State) :
  drawTool d ≠ SCRIBBLE →
  run (drawEvents d) s
  = Some (handleMouseUp
            (beginShape
               (dragToLast
                  (Shape.mk (drawTool d) (Pos.x (drawStart d)) (Pos.y (drawStart d))
                            0 0 (thickness s))
                  (lastPointerFrom None (drawMoves d)))
               (handleToolSelect (drawTool d) s))).
Proof.
  intros Htool. unfold drawEvents.
  change (run (EvToolSelect (drawTool d)
                 :: EvMouseDown (pointerAt (drawStart d))
                 :: map EvMouseMove (drawMoves d) ++ [EvMouseUp]) s)
    with (run ((EvMouseDown (pointerAt (drawStart d)) :: map EvMouseMove (drawMoves d))
                 ++ [EvMouseUp]) (handleToolSelect (drawTool d) s)).
  rewrite run_app, run_down_moves_shape by exact Htool. reflexivity.
Qed.

(** Facts that hold of both kinds of state in which a draw is. *)
Lemma beginLine_frame (v : Line.t) (s : State) :
  stored (beginLine v s) (currentPage s) = S (stored s (currentPage s))
  ∧ (∃ snap, undoStack (beginLine v s) = undoStack s ++ [snap])
  ∧ (∀ q, q ≠ currentPage s → pages (beginLine v s) !! q = pages s !! q)
  ∧ (is_Some (pages s !! currentPage s) →
     last (undoStack (beginLine v s))
     = Some (snapshotOf (pages (beginLine v s)) (currentPage s))).
Proof.
  split; [|split; [|split]].
  - unfold stored. destruct (beginLine_shows v s) as [Hl Hs].
    unfold currentLines, currentShapes in Hl, Hs.
    change (currentPage (beginLine v s)) with (currentPage s) in Hl, Hs.
    rewrite Hl, Hs, length_app. simpl. lia.
  - eexists. reflexivity.
  - intros q Hq. unfold beginLine. simpl. by rewrite lookup_insert_ne.
  - intros [pg Hpg]. unfold beginLine. simpl.
    by rewrite last_snoc, snapshotOf_insert, Hpg.
Qed.

Lemma beginShape_frame (v : Shape.t) (s : State) :
  stored (beginShape v s) (currentPage s) = S (stored s (currentPage s))
  ∧ (∃ snap, undoStack (beginShape v s) = undoStack s ++ [snap])
  ∧ (∀ q, q ≠ currentPage s → pages (beginShape v s) !! q = pages s !! q)
  ∧ (is_Some (pages s !! currentPage s) →
     last (undoStack (beginShape v s))
     = Some (snapshotOf (pages (beginShape v s)) (currentPage s))).
Proof.
  split; [|split; [|split]].
  - unfold stored. destruct (beginShape_shows v s) as [Hl Hs].
    unfold currentLines, currentShapes in Hl, Hs.
    change (currentPage (beginShape v s)) with (currentPage s) in Hl, Hs.
    rewrite Hl, Hs, length_app. simpl. lia.
  - eexists. reflexivity.
  - intros q Hq. unfold beginShape. simpl. by rewrite lookup_insert_ne.
  - intros [pg Hpg]. unfold beginShape. simpl.
    by rewrite last_snoc, snapshotOf_insert, Hpg.
Qed.

(** A draw that has begun and not been released, from any state. *)
Lemma run_down_moves (p : Pos.t) (es : list MouseEvent) (s : State) :
  ∃ s', run (EvMouseDown (pointerAt p) :: map EvMouseMove es) s = Some s'
    ∧ isDrawing s' = true
    ∧ currentPage s' = currentPage s
    ∧ selectedTool s' = selectedTool s
    ∧ stored s' (currentPage s) = S (stored s (currentPage s))
    ∧ (∃ snap, undoStack s' = undoStack s ++ [snap])
    ∧ redoStack s' = []
    ∧ (∀ q, q ≠ currentPage s → pages s' !! q = pages s !! q)
    ∧ (is_Some (pages s !! currentPage s) →
       last (undoStack s') = Some (snapshotOf (pages s') (currentPage s))).
Proof.
  assert (Hcases : selectedTool s = SCRIBBLE ∨ selectedTool s ≠ SCRIBBLE)
    by (destruct (selectedTool s); auto).
  destruct Hcases as [Htool|Htool].
  - rewrite run_down_moves_stroke by done. eexists. split; [reflexivity|].
    destruct (beginLine_frame
                (Line.mk ([Pos.x p; Pos.y p] ++ coordsOf es) (thickness s)) s)
      as (Hstored & Hundo & Hoth & Htop).
    split; [reflexivity|]. split; [reflexivity|]. split; [reflexivity|].
    split; [exact Hstored|]. split; [exact Hundo|]. split; [reflexivity|].
    split; [exact Hoth|exact Htop].
  - rewrite run_down_moves_shape by done. eexists. split; [reflexivity|].
    destruct (beginShape_frame
                (dragToLast
                   (Shape.mk (selectedTool s) (Pos.x p) (Pos.y p) 0 0 (thickness s))
                   (lastPointerFrom None es)) s)
      as (Hstored & Hundo & Hoth & Htop).
    split; [reflexivity|]. split; [reflexivity|]. split; [reflexivity|].
    split; [exact Hstored|]. split; [exact Hundo|]. split; [reflexivity|].
    split; [exact Hoth|exact Htop].
Qed.

(** One completed draw, from any state. *)
Lemma run_draw (d : Draw) (s : State) :
  ∃ s', run (drawEvents d) s = Some s'
    ∧ isDrawing s' = false
    ∧ currentPage s' = currentPage s
    ∧ stored s' (currentPage s) = S (stored s (currentPage s))
    ∧ (∃ snap, undoStack s' = undoStack s ++ [snap])
    ∧ redoStack s' = []
    ∧ (∀ q, q ≠ currentPage s → pages s' !! q = pages s !! q)
    ∧ (is_Some (pages s !! currentPage s) →
       last (undoStack s') = Some (snapshotOf (pages s') (currentPage s))).
Proof.
  unfold drawEvents.
  destruct (run_down_moves (drawStart d) (drawMoves d) (handleToolSelect (drawTool d) s))
    as (s1 & Hrun & _ & Hcp & _ & Hstored & Hundo & Hredo & Hoth & Htop).
  exists (handleMouseUp s1). split.
  { change (run (EvToolSelect (drawTool d)
                   :: EvMouseDown (pointerAt (drawStart d))
                   :: map EvMouseMove (drawMoves d) ++ [EvMouseUp]) s)
      with (run ((EvMouseDown (pointerAt (drawStart d)) :: map EvMouseMove (drawMoves d))
                   ++ [EvMouseUp]) (handleToolSelect (drawTool d) s)).
    by rewrite run_app, Hrun. }
  split; [reflexivity|]. split; [exact Hcp|]. split; [exact Hstored|].
  split; [exact Hundo|]. split; [exact Hredo|]. split; [exact Hoth|exact Htop].
Qed.

Lemma run_draws (ds : list Draw) (s : State) :
  isDrawing s = false →
  ∃ s', run (concat (map drawEvents ds)) s = Some s'
    ∧ isDrawing s' = false
    ∧ currentPage s' = currentPage s
    ∧ stored s' (currentPage s) = (stored s (currentPage s) + length ds)%nat
    ∧ (∀ q, q ≠ currentPage s → pages s' !! q = pages s !! q).
Proof.
  revert s. induction ds as [|d ds IH]; intros s Hidle.
  - exists s. simpl. split; [done|]. split; [done|]. split; [done|]. split; [lia|done].
  - destruct (run_draw d s) as (s1 & Hrun1 & Hidle1 & Hcp1 & Hcount1 & _ & _ & Hoth1 & _).
    destruct (IH s1 Hidle1) as (s2 & Hrun2 & Hidle2 & Hcp2 & Hcount2 & Hoth2).
    exists s2.
    change (concat (map drawEvents (d :: ds)))
      with (drawEvents d ++ concat (map drawEvents ds)).
    rewrite run_app, Hrun1, Hrun2.
    rewrite Hcp1 in *. split; [done|]. split; [done|]. split; [congruence|]. split.
    + rewrite Hcount2, Hcount1. simpl. lia.
    + intros q Hq. rewrite Hoth2, Hoth1; done.
Qed.

(** ** The claims *)

(** C1. In every state whose undo stack is not empty, the reachable ones
    among them, [undoAction] followed at once by [redoAction] leaves the
    current page with exactly the lines and the shapes it had before the undo
    (and on the same page). *)
Theorem undo_then_redo_restores_page (s : State) :
  undoStack s ≠ [] →
  currentLines (redoAction (undoAction s)) = currentLines s
  ∧ currentShapes (redoAction (undoAction s)) = currentShapes s
  ∧ currentPage (redoAction (undoAction s)) = currentPage s.
Proof.
  intros Hne. destruct (undo_redo_any s Hne) as (Hp & Hl & Hs & _). done.
Qed.

Lemma undo_then_redo_restores_page_witness :
  currentLines
    (redoAction (undoAction (handleMouseUp (handleMouseDown (pointerAt (Pos.mk 10 10)) initialState))))
  = currentLines (handleMouseUp (handleMouseDown (pointerAt (Pos.mk 10 10)) initialState))
  ∧ currentShapes
      (redoAction (undoAction (handleMouseUp (handleMouseDown (pointerAt (Pos.mk 10 10)) initialState))))
    = currentShapes (handleMouseUp (handleMouseDown (pointerAt (Pos.mk 10 10)) initialState))
  ∧ currentPage
      (redoAction (undoAction (handleMouseUp (handleMouseDown (pointerAt (Pos.mk 10 10)) initialState))))
    = currentPage (handleMouseUp (handleMouseDown (pointerAt (Pos.mk 10 10)) initialState)).
Proof.
  apply undo_then_redo_restores_page. discriminate.
Defined.

(** C7. [undoAction] with an empty undo stack returns the state it was
    given, every cell of it; so does [redoAction] with an empty redo
    stack. *)
Theorem undo_redo_noop_on_empty_stack (s : State) :
  (undoStack s = [] → undoAction s = s)
  ∧ (redoStack s = [] → redoAction s = s).
Proof.
  split; [apply undoAction_nil | apply redoAction_nil].
Qed.

Lemma undo_redo_noop_on_empty_stack_witness :
  undoAction (undoAction initialState) = undoAction initialState
  ∧ redoAction initialState = initialState.
Proof.
  split.
  - apply (proj1 (undo_redo_noop_on_empty_stack (undoAction initialState))).
    reflexivity.
  - apply (proj2 (undo_redo_noop_on_empty_stack initialState)).
    reflexivity.
Defined.

(** C3. After a pointer-down that carries a pointer position the redo stack
    is empty, and a [redoAction] that follows at once changes nothing; this
    is so in particular when the pointer-down comes after any number of
    undos. *)
Theorem new_draw_clears_redo (s : State) (p : Pos.t) :
  redoStack (handleMouseDown (pointerAt p) s) = []
  ∧ redoAction (handleMouseDown (pointerAt p) s) = handleMouseDown (pointerAt p) s
  ∧ ∀ n : nat,
      redoStack (handleMouseDown (pointerAt p) (Nat.iter n undoAction s)) = []
      ∧ redoAction (handleMouseDown (pointerAt p) (Nat.iter n undoAction s))
        = handleMouseDown (pointerAt p) (Nat.iter n undoAction s).
Proof.
  assert (Hall : ∀ s0, redoStack (handleMouseDown (pointerAt p) s0) = []
                       ∧ redoAction (handleMouseDown (pointerAt p) s0)
                         = handleMouseDown (pointerAt p) s0).
  { intros s0. split; [reflexivity|].
    apply redoAction_nil. reflexivity. }
  destruct (Hall s) as [H1 H2]. split; [exact H1|]. split; [exact H2|].
  intros n. apply Hall.
Qed.

(** C5, on the code.  A pointer-down that carries a pointer position, made
    when no draw is in progress on a page that has its entry, empties the
    redo stack and appends one element to the current page: under SCRIBBLE a
    line whose points are the pointer's two coordinates, under any other
    tool a shape of that tool's type at the pointer with width 0 and
    height 0.  The snapshot it pushes on the undo stack is read after the
    append: it is the snapshot of the page with the new element, and not the
    snapshot of the page as it was.  On a new component a pointer-down at
    (10,10) leaves the undo stack with the initial empty snapshot and a
    snapshot that holds the new line. *)
Theorem pointer_down_snapshot_holds_the_new_element (s : State) (p : Pos.t) :
  isDrawing s = false →
  is_Some (pages s !! currentPage s) →
  undoStack (handleMouseDown (pointerAt p) s)
    = undoStack s
        ++ [snapshotOf (pages (handleMouseDown (pointerAt p) s)) (currentPage s)]
  ∧ undoStack (handleMouseDown (pointerAt p) s)
    ≠ undoStack s ++ [snapshotOf (pages s) (currentPage s)]
  ∧ redoStack (handleMouseDown (pointerAt p) s) = []
  ∧ (selectedTool s = SCRIBBLE →
       currentLines (handleMouseDown (pointerAt p) s)
         = currentLines s ++ [Line.mk [Pos.x p; Pos.y p] (thickness s)]
       ∧ currentShapes (handleMouseDown (pointerAt p) s) = currentShapes s)
  ∧ (selectedTool s ≠ SCRIBBLE →
       currentLines (handleMouseDown (pointerAt p) s) = currentLines s
       ∧ currentShapes (handleMouseDown (pointerAt p) s)
         = currentShapes s
             ++ [Shape.mk (selectedTool s) (Pos.x p) (Pos.y p) 0 0 (thickness s)])
  ∧ currentPage (handleMouseDown (pointerAt p) s) = currentPage s
  ∧ (∀ q : Z, q ≠ currentPage s →
       pages (handleMouseDown (pointerAt p) s) !! q = pages s !! q)
  ∧ undoStack (handleMouseDown (pointerAt (Pos.mk 10 10)) initialState)
    = [Snapshot.mk [] [];
       Snapshot.mk [(1%nat, Line.mk [10%float; 10%float] 2)] []].
Proof.
  intros _ Hentry.
  assert (Hshows :
    (selectedTool s = SCRIBBLE →
       currentLines (handleMouseDown (pointerAt p) s)
         = currentLines s ++ [Line.mk [Pos.x p; Pos.y p] (thickness s)]
       ∧ currentShapes (handleMouseDown (pointerAt p) s) = currentShapes s)
    ∧ (selectedTool s ≠ SCRIBBLE →
       currentLines (handleMouseDown (pointerAt p) s) = currentLines s
       ∧ currentShapes (handleMouseDown (pointerAt p) s)
         = currentShapes s
             ++ [Shape.mk (selectedTool s) (Pos.x p) (Pos.y p) 0 0 (thickness s)])).
  { split; intros Htool.
    - rewrite handleMouseDown_beginLine by done. apply beginLine_shows.
    - rewrite handleMouseDown_beginShape by done. apply beginShape_shows. }
  assert (Hdown : ∃ s1, Some (handleMouseDown (pointerAt p) s) = Some s1
    ∧ isDrawing s1 = true
    ∧ currentPage s1 = currentPage s
    ∧ selectedTool s1 = selectedTool s
    ∧ stored s1 (currentPage s) = S (stored s (currentPage s))
    ∧ (∃ snap, undoStack s1 = undoStack s ++ [snap])
    ∧ redoStack s1 = []
    ∧ (∀ q, q ≠ currentPage s → pages s1 !! q = pages s !! q)
    ∧ (is_Some (pages s !! currentPage s) →
       last (undoStack s1) = Some (snapshotOf (pages s1) (currentPage s))))
    by exact (run_down_moves p [] s).
  destruct Hdown
    as (s1 & Heq & _ & Hcp & _ & Hstored & [snap Hundo] & Hredo & Hoth & Htop).
  injection Heq as Heq. rewrite Heq in *. clear Heq.
  specialize (Htop Hentry). rewrite Hundo, last_snoc in Htop.
  injection Htop as ->.
  split; [exact Hundo|]. split.
  { rewrite Hundo. intros Heq. apply app_inv_head in Heq. injection Heq as Heq.
    unfold stored in Hstored.
    rewrite <- !snapshotOf_lines, <- !snapshotOf_shapes, Heq in Hstored. lia. }
  split; [exact Hredo|].
  destruct Hshows as [Hscribble Hshape].
  split; [exact Hscribble|]. split; [exact Hshape|].
  split; [exact Hcp|]. split; [exact Hoth|reflexivity].
Qed.

Lemma pointer_down_snapshot_holds_the_new_element_witness :
  undoStack (handleMouseDown (pointerAt (Pos.mk 10 10)) initialState)
    = undoStack initialState
        ++ [snapshotOf (pages (handleMouseDown (pointerAt (Pos.mk 10 10)) initialState))
                       (currentPage initialState)]
  ∧ undoStack (handleMouseDown (pointerAt (Pos.mk 10 10)) initialState)
    ≠ undoStack initialState ++ [snapshotOf (pages initialState) (currentPage initialState)].
Proof.
  destruct (pointer_down_snapshot_holds_the_new_element initialState (Pos.mk 10 10))
    as (Hpushed & Hnot & _).
  - reflexivity.
  - exists emptyPage. reflexivity.
  - split; [exact Hpushed | exact Hnot].
Defined.

(** C2, as the code has it.  [clearCanvas] leaves the current page without
    lines and shapes, resets the undo stack to a single empty snapshot and
    the redo stack to the empty stack (no snapshot at all), and changes the
    entry of no other page. *)
Theorem clearCanvas_clears_current_page (s : State) :
  currentLines (clearCanvas s) = []
  ∧ currentShapes (clearCanvas s) = []
  ∧ undoStack (clearCanvas s) = [emptySnapshot]
  ∧ redoStack (clearCanvas s) = []
  ∧ currentPage (clearCanvas s) = currentPage s
  ∧ (∀ q : Z, q ≠ currentPage s → pages (clearCanvas s) !! q = pages s !! q).
Proof.
  unfold currentLines, currentShapes, clearCanvas. simpl.
  rewrite linesOf_insert, shapesOf_insert.
  repeat split. intros q Hq. by rewrite lookup_insert_ne.
Qed.

Lemma clearCanvas_clears_current_page_witness :
  pages
    (clearCanvas
       (navigatePage 2 (handleMouseUp (handleMouseDown (pointerAt (Pos.mk 10 10)) initialState))))
    !! 1
  = pages
      (navigatePage 2 (handleMouseUp (handleMouseDown (pointerAt (Pos.mk 10 10)) initialState)))
      !! 1.
Proof.
  destruct (clearCanvas_clears_current_page
              (navigatePage 2
                 (handleMouseUp (handleMouseDown (pointerAt (Pos.mk 10 10)) initialState))))
    as (_ & _ & _ & _ & _ & Hother).
  apply Hother. discriminate.
Defined.

(** C2, as stated, fails: after [clearCanvas] the redo stack is not a single
    empty snapshot, it is empty.  Shown in the initial state. *)
Lemma clearCanvas_redoStack_is_not_a_snapshot :
  ¬ (currentLines (clearCanvas initialState) = []
     ∧ currentShapes (clearCanvas initialState) = []
     ∧ undoStack (clearCanvas initialState) = [emptySnapshot]
     ∧ redoStack (clearCanvas initialState) = [emptySnapshot]
     ∧ (∀ q : Z, q ≠ currentPage initialState →
          pages (clearCanvas initialState) !! q = pages initialState !! q)).
Proof. intros (_ & _ & _ & Hredo & _). discriminate Hredo. Qed.

(** C6. [navigatePage n] makes [n] the current page, adds an empty entry
    for [n] exactly when [pages] has none, and leaves the undo stack, the
    redo stack and every entry that [pages] already had as they were.  From
    the initial state, [navigatePage 3] adds the empty entry for page 3,
    makes 3 the current page and keeps the entry of page 1. *)
Theorem navigatePage_creates_lazily (s : State) (n : Z) :
  currentPage (navigatePage n s) = n
  ∧ undoStack (navigatePage n s) = undoStack s
  ∧ redoStack (navigatePage n s) = redoStack s
  ∧ (pages s !! n = None → pages (navigatePage n s) = <[n := emptyPage]> (pages s))
  ∧ (is_Some (pages s !! n) → pages (navigatePage n s) = pages s)
  ∧ (∀ (q : Z) (pg : Page.t),
       pages s !! q = Some pg → pages (navigatePage n s) !! q = Some pg)
  ∧ (pages (navigatePage 3 initialState) !! 3 = Some emptyPage
     ∧ currentPage (navigatePage 3 initialState) = 3
     ∧ pages (navigatePage 3 initialState) !! 1 = pages initialState !! 1).
Proof.
  unfold navigatePage.
  split; [by destruct (pages s !! n)|].
  split; [by destruct (pages s !! n)|].
  split; [by destruct (pages s !! n)|].
  split; [by intros ->|].
  split; [by intros [pg ->]|].
  split; [|by vm_compute].
  intros q pg Hq. destruct (pages s !! n) eqn:Hn; [done|]. simpl.
  rewrite lookup_insert_ne; [done|]. intros ->. congruence.
Qed.

Lemma navigatePage_creates_lazily_witness :
  pages (navigatePage 2 initialState) = <[2 := emptyPage]> (pages initialState)
  ∧ pages (navigatePage 1 initialState) = pages initialState.
Proof.
  split.
  - destruct (navigatePage_creates_lazily initialState 2) as (_ & _ & _ & Hnew & _).
    apply Hnew. reflexivity.
  - destruct (navigatePage_creates_lazily initialState 1) as (_ & _ & _ & _ & Hold & _).
    apply Hold. exists emptyPage. reflexivity.
Defined.

(** C9. [handleFileChange] with a file selected throws the whole session
    away, whatever it held: [pages] becomes the single empty entry for
    page 1, the undo stack one empty snapshot, the redo stack empty and the
    current page 1 (the file is stored and the page count reset to 0). *)
Theorem handleFileChange_discards_session (s : State) (file : File) (rest : list File) :
  pages (handleFileChange {| files := file :: rest |} s) = {[ 1 := emptyPage ]}
  ∧ undoStack (handleFileChange {| files := file :: rest |} s) = [emptySnapshot]
  ∧ redoStack (handleFileChange {| files := file :: rest |} s) = []
  ∧ currentPage (handleFileChange {| files := file :: rest |} s) = 1
  ∧ pdfFile (handleFileChange {| files := file :: rest |} s) = Some file
  ∧ numPages (handleFileChange {| files := file :: rest |} s) = 0
  ∧ (∀ page : Z,
       linesOf (pages (handleFileChange {| files := file :: rest |} s)) page = []
       ∧ shapesOf (pages (handleFileChange {| files := file :: rest |} s)) page = []).
Proof.
  repeat split; simpl.
  - unfold linesOf. destruct (decide (page = 1)) as [->|Hne].
    + by rewrite lookup_singleton_eq.
    + by rewrite lookup_singleton_ne.
  - unfold shapesOf. destruct (decide (page = 1)) as [->|Hne].
    + by rewrite lookup_singleton_eq.
    + by rewrite lookup_singleton_ne.
Qed.




(** C8. A sequence of completed draws (the tool chosen, a pointer-down
    with a position, any pointer-moves, the pointer-up), begun when no draw
    is in progress and with nothing else in between, runs to the end, leaves
    no draw in progress, stays on its page, and commits as many strokes and
    shapes on it as there were draws: the page then has exactly their number
    when it had none before.  A further draw that is begun and not released
    commits nothing: its element is stored and not counted. *)
Theorem completed_draws_are_counted (s : State) (ds : list Draw) :
  isDrawing s = false →
  ∃ s', run (concat (map drawEvents ds)) s = Some s'
    ∧ isDrawing s' = false
    ∧ currentPage s' = currentPage s
    ∧ committed s' (currentPage s) = (committed s (currentPage s) + length ds)%nat
    ∧ (committed s (currentPage s) = 0%nat → committed s' (currentPage s) = length ds)
    ∧ (∀ (p : Pos.t) (es : list MouseEvent),
         ∃ s'', run (EvMouseDown (pointerAt p) :: map EvMouseMove es) s' = Some s''
           ∧ isDrawing s'' = true
           ∧ stored s'' (currentPage s) = S (stored s' (currentPage s))
           ∧ committed s'' (currentPage s) = committed s' (currentPage s)).
Proof.
  intros Hidle.
  destruct (run_draws ds s Hidle) as (s' & Hrun & Hidle' & Hcp & Hcount & _).
  exists s'. split; [exact Hrun|]. split; [exact Hidle'|]. split; [exact Hcp|].
  assert (Hc : committed s (currentPage s) = stored s (currentPage s)).
  { unfold committed. by rewrite Hidle. }
  assert (Hc' : committed s' (currentPage s) = stored s' (currentPage s)).
  { unfold committed. by rewrite Hidle'. }
  split; [by rewrite Hc, Hc'|]. split; [intros Hzero; rewrite Hc' ; lia|].
  intros p es.
  destruct (run_down_moves p es s')
    as (s'' & Hrun'' & Hdrawing & Hcp'' & _ & Hstored & _).
  exists s''. split; [exact Hrun''|]. split; [exact Hdrawing|].
  rewrite Hcp in Hstored. split; [exact Hstored|].
  rewrite Hc'. unfold committed. rewrite Hdrawing, Hcp'', Hcp.
  rewrite bool_decide_eq_true_2 by done. simpl. by rewrite Hstored.
Qed.

Lemma completed_draws_are_counted_witness :
  ∃ s', run (concat (map drawEvents [strokeA; rectangleB; strokeA])) initialState = Some s'
    ∧ isDrawing s' = false
    ∧ committed s' 1 = 3%nat.
Proof.
  destruct (completed_draws_are_counted initialState [strokeA; rectangleB; strokeA] eq_refl)
    as (s' & Hrun & Hidle & _ & _ & Hcount & _).
  exists s'. split; [exact Hrun|]. split; [exact Hidle|]. exact (Hcount eq_refl).
Defined.




(** ** Further properties *)

(** *** The invariant of the component *)

Lemma pageOk_empty : pageOk emptyPage.
Proof. split; constructor. Qed.

Lemma snapshotOk_empty : snapshotOk emptySnapshot.
Proof. split; constructor. Qed.

Lemma pageOk_default (pgs : gmap Z Page.t) (page : Z) :
  map_Forall (fun _ pg => pageOk pg) pgs →
  pageOk (default emptyPage (pgs !! page)).
Proof.
  intros Hall. destruct (pgs !! page) as [pg|] eqn:Hpg; simpl.
  - exact (Hall page pg Hpg).
  - exact pageOk_empty.
Qed.

Lemma snapshotOk_snapshotOf (pgs : gmap Z Page.t) (page : Z) :
  map_Forall (fun _ pg => pageOk pg) pgs → snapshotOk (snapshotOf pgs page).
Proof.
  intros Hall. unfold snapshotOf.
  destruct (pgs !! page) as [pg|] eqn:Hpg.
  - exact (Hall page pg Hpg).
  - exact snapshotOk_empty.
Qed.

Lemma linesOf_pageOk (pgs : gmap Z Page.t) (page : Z) :
  map_Forall (fun _ pg => pageOk pg) pgs → Forall lineOk (linesOf pgs page).
Proof.
  intros Hall. rewrite <- linesOf_default. by apply pageOk_default.
Qed.

Lemma shapesOf_pageOk (pgs : gmap Z Page.t) (page : Z) :
  map_Forall (fun _ pg => pageOk pg) pgs → Forall shapeOk (shapesOf pgs page).
Proof.
  intros Hall. rewrite <- shapesOf_default. by apply pageOk_default.
Qed.

Lemma wellFormed_initial : wellFormed initialState.
Proof.
  split; [by exists emptyPage|]. split; [done|]. split; [done|].
  split; [|split; [|constructor]].
  - apply map_Forall_singleton. exact pageOk_empty.
  - constructor; [exact snapshotOk_empty|constructor].
Qed.

Lemma beginLine_wellFormed (v : Line.t) (s : State) :
  lineOk v → wellFormed s → wellFormed (beginLine v s).
Proof.
  intros Hv (Hcur & Hth & Hfill & Hpages & Hundo & Hredo).
  destruct (pageOk_default (pages s) (currentPage s) Hpages) as [Hl Hs].
  split; [|split; [exact Hth|split; [exact Hfill|split; [|split]]]]; simpl.
  - rewrite lookup_insert_eq. eauto.
  - apply map_Forall_insert_2; [|exact Hpages].
    split; simpl; [|exact Hs].
    rewrite map_app. apply Forall_app. split; [exact Hl|]. by constructor.
  - apply Forall_app. split; [exact Hundo|]. constructor; [|constructor].
    destruct (pages s !! currentPage s) as [pg|] eqn:Hpg; [|exact snapshotOk_empty].
    destruct (Hpages _ _ Hpg) as [Hl' Hs'].
    split; simpl; [|exact Hs'].
    rewrite map_app. apply Forall_app. split; [exact Hl'|]. by constructor.
  - constructor.
Qed.

Lemma beginShape_wellFormed (v : Shape.t) (s : State) :
  shapeOk v → wellFormed s → wellFormed (beginShape v s).
Proof.
  intros Hv (Hcur & Hth & Hfill & Hpages & Hundo & Hredo).
  destruct (pageOk_default (pages s) (currentPage s) Hpages) as [Hl Hs].
  split; [|split; [exact Hth|split; [exact Hfill|split; [|split]]]]; simpl.
  - rewrite lookup_insert_eq. eauto.
  - apply map_Forall_insert_2; [|exact Hpages].
    split; simpl; [exact Hl|].
    rewrite map_app. apply Forall_app. split; [exact Hs|]. by constructor.
  - apply Forall_app. split; [exact Hundo|]. constructor; [|constructor].
    destruct (pages s !! currentPage s) as [pg|] eqn:Hpg; [|exact snapshotOk_empty].
    destruct (Hpages _ _ Hpg) as [Hl' Hs'].
    split; simpl; [exact Hl'|].
    rewrite map_app. apply Forall_app. split; [exact Hs'|]. by constructor.
  - constructor.
Qed.

Lemma handleMouseDown_idle (e : MouseEvent) (s : State) :
  pointerOf e = None → handleMouseDown e s = s.
Proof.
  unfold pointerOf, handleMouseDown.
  destruct (getStage e) as [stage|]; [|done]. by intros ->.
Qed.

Lemma handleMouseDown_wellFormed (e : MouseEvent) (s : State) :
  wellFormed s → wellFormed (handleMouseDown e s).
Proof.
  intros Hwf. destruct (pointerOf e) as [p|] eqn:Hp;
    [|by rewrite handleMouseDown_idle].
  rewrite (pointerOf_Some e p Hp).
  destruct Hwf as (Hcur & Hth & Hfill & Hrest).
  assert (Hcases : selectedTool s = SCRIBBLE ∨ selectedTool s ≠ SCRIBBLE)
    by (destruct (selectedTool s); auto).
  destruct Hcases as [Htool|Htool].
  - rewrite handleMouseDown_beginLine by done.
    apply beginLine_wellFormed; [|done]. by repeat split.
  - rewrite handleMouseDown_beginShape by done.
    apply beginShape_wellFormed; [|done]. by split.
Qed.

Lemma assignLine_wellFormed (r : Ref) (v : Line.t) (s : State) :
  lineOk v → wellFormed s → wellFormed (assignLine r v s).
Proof.
  intros Hv (Hcur & Hth & Hfill & Hpages & Hundo & Hredo).
  split; [|split; [exact Hth|split; [exact Hfill|split; [|split]]]]; simpl.
  - rewrite lookup_fmap. destruct Hcur as [pg ->]. simpl. eauto.
  - apply map_Forall_fmap. intros q pg Hq. destruct (Hpages q pg Hq) as [Hl Hs].
    split; simpl; [by apply writeObject_Forall|exact Hs].
  - apply Forall_map. eapply Forall_impl; [exact Hundo|].
    intros snap [Hl Hs]. split; simpl; [by apply writeObject_Forall|exact Hs].
  - apply Forall_map. eapply Forall_impl; [exact Hredo|].
    intros snap [Hl Hs]. split; simpl; [by apply writeObject_Forall|exact Hs].
Qed.

Lemma assignShape_wellFormed (r : Ref) (v : Shape.t) (s : State) :
  shapeOk v → wellFormed s → wellFormed (assignShape r v s).
Proof.
  intros Hv (Hcur & Hth & Hfill & Hpages & Hundo & Hredo).
  split; [|split; [exact Hth|split; [exact Hfill|split; [|split]]]]; simpl.
  - rewrite lookup_fmap. destruct Hcur as [pg ->]. simpl. eauto.
  - apply map_Forall_fmap. intros q pg Hq. destruct (Hpages q pg Hq) as [Hl Hs].
    split; simpl; [exact Hl|by apply writeObject_Forall].
  - apply Forall_map. eapply Forall_impl; [exact Hundo|].
    intros snap [Hl Hs]. split; simpl; [exact Hl|by apply writeObject_Forall].
  - apply Forall_map. eapply Forall_impl; [exact Hredo|].
    intros snap [Hl Hs]. split; simpl; [exact Hl|by apply writeObject_Forall].
Qed.

Lemma last_Forall {A : Type} (P : A → Prop) (l : list (Ref * A)) (r : Ref) (a : A) :
  Forall P (map snd l) → last l = Some (r, a) → P a.
Proof.
  intros Hall Hlast. apply last_Some in Hlast as [front ->].
  rewrite map_app in Hall. apply Forall_app in Hall as [_ Hall].
  by apply Forall_inv in Hall.
Qed.

Lemma handleMouseMove_wellFormed (e : MouseEvent) (s s' : State) :
  wellFormed s → handleMouseMove e s = Some s' → wellFormed s'.
Proof.
  intros Hwf.
  destruct (isDrawing s) eqn:Hdrawing;
    [|rewrite handleMouseMove_idle by (left; done); by intros [= <-]].
  destruct (pointerOf e) as [p|] eqn:Hp;
    [|rewrite handleMouseMove_idle by (right; done); by intros [= <-]].
  rewrite (pointerOf_Some e p Hp), handleMouseMove_drawing by done.
  destruct (pages s !! currentPage s) as [pg|] eqn:Hpg; [|discriminate].
  destruct Hwf as (Hcur & Hth & Hfill & Hpages & Hrest).
  destruct (Hpages _ _ Hpg) as [Hl Hs].
  destruct (selectedTool s).
  - destruct (last (Page.lines pg)) as [[r l]|] eqn:Hlast; [|discriminate].
    intros [= <-]. apply assignLine_wellFormed; [|done].
    destruct (last_Forall _ _ _ _ Hl Hlast) as (Heven & Hlen & Hthick).
    unfold lineOk. simpl. rewrite length_app. simpl.
    split; [|split; [lia|exact Hthick]].
    replace (length (Line.points l) + 2)%nat with (S (S (length (Line.points l)))) by lia.
    exact Heven.
  - destruct (last (Page.shapes pg)) as [[r sh]|] eqn:Hlast; [|discriminate].
    intros [= <-]. apply assignShape_wellFormed; [|done].
    exact (last_Forall _ _ _ _ Hs Hlast).
  - destruct (last (Page.shapes pg)) as [[r sh]|] eqn:Hlast; [|discriminate].
    intros [= <-]. apply assignShape_wellFormed; [|done].
    exact (last_Forall _ _ _ _ Hs Hlast).
  - destruct (last (Page.shapes pg)) as [[r sh]|] eqn:Hlast; [|discriminate].
    intros [= <-]. apply assignShape_wellFormed; [|done].
    exact (last_Forall _ _ _ _ Hs Hlast).
Qed.

Lemma undoAction_wellFormed (s : State) : wellFormed s → wellFormed (undoAction s).
Proof.
  intros Hwf. destruct (decide (undoStack s = [])) as [Hnil|Hne].
  { by rewrite undoAction_nil. }
  destruct (nonempty_snoc _ Hne) as (front & lastState & Hst).
  rewrite (undoAction_snoc s front lastState Hst).
  destruct Hwf as (Hcur & Hth & Hfill & Hpages & Hundo & Hredo).
  rewrite Hst in Hundo. apply Forall_app in Hundo as [Hfront Hlast].
  rewrite Forall_singleton in Hlast.
  split; [|split; [exact Hth|split; [exact Hfill|split; [|split]]]]; simpl.
  - rewrite lookup_insert_eq. eauto.
  - apply map_Forall_insert_2; [exact Hlast|exact Hpages].
  - exact Hfront.
  - apply Forall_app. split; [exact Hredo|].
    constructor; [|constructor]. by apply snapshotOk_snapshotOf.
Qed.

Lemma redoAction_wellFormed (s : State) : wellFormed s → wellFormed (redoAction s).
Proof.
  intros Hwf. destruct (decide (redoStack s = [])) as [Hnil|Hne].
  { by rewrite redoAction_nil. }
  destruct (nonempty_snoc _ Hne) as (front & lastState & Hst).
  rewrite (redoAction_snoc s front lastState Hst).
  destruct Hwf as (Hcur & Hth & Hfill & Hpages & Hundo & Hredo).
  rewrite Hst in Hredo. apply Forall_app in Hredo as [Hfront Hlast].
  rewrite Forall_singleton in Hlast.
  split; [|split; [exact Hth|split; [exact Hfill|split; [|split]]]]; simpl.
  - rewrite lookup_insert_eq. eauto.
  - apply map_Forall_insert_2; [exact Hlast|exact Hpages].
  - apply Forall_app. split; [exact Hundo|].
    constructor; [|constructor]. by apply snapshotOk_snapshotOf.
  - exact Hfront.
Qed.

Lemma resetCanvas_wellFormed (s : State) :
  thickness s = 2%float → fillColor s = "#000000"%string → wellFormed (resetCanvas s).
Proof.
  intros Hth Hfill.
  split; [by exists emptyPage|]. split; [exact Hth|]. split; [exact Hfill|].
  split; [|split; [|constructor]]; simpl.
  - apply map_Forall_singleton. exact pageOk_empty.
  - constructor; [exact snapshotOk_empty|constructor].
Qed.

Lemma clearCanvas_wellFormed (s : State) : wellFormed s → wellFormed (clearCanvas s).
Proof.
  intros (Hcur & Hth & Hfill & Hpages & Hundo & Hredo).
  split; [|split; [exact Hth|split; [exact Hfill|split; [|split]]]]; simpl.
  - rewrite lookup_insert_eq. eauto.
  - apply map_Forall_insert_2; [exact pageOk_empty|exact Hpages].
  - constructor; [exact snapshotOk_empty|constructor].
  - constructor.
Qed.

Lemma navigatePage_wellFormed (n : Z) (s : State) :
  wellFormed s → wellFormed (navigatePage n s).
Proof.
  intros (Hcur & Hth & Hfill & Hpages & Hundo & Hredo). unfold navigatePage.
  destruct (pages s !! n) as [pg|] eqn:Hn.
  - split; [simpl; rewrite Hn; eauto|]. done.
  - split; [simpl; rewrite lookup_insert_eq; eauto|].
    split; [exact Hth|]. split; [exact Hfill|].
    split; [|split; assumption]. simpl.
    apply map_Forall_insert_2; [exact pageOk_empty|exact Hpages].
Qed.

Lemma handle_wellFormed (ev : Event) (s s' : State) :
  wellFormed s → handle ev s = Some s' → wellFormed s'.
Proof.
  intros Hwf. destruct ev; simpl.
  - intros [= <-]. by apply handleMouseDown_wellFormed.
  - by apply handleMouseMove_wellFormed.
  - intros [= <-]. exact Hwf.
  - intros [= <-]. by apply undoAction_wellFormed.
  - intros [= <-]. by apply redoAction_wellFormed.
  - intros [= <-]. by apply clearCanvas_wellFormed.
  - intros [= <-]. by apply navigatePage_wellFormed.
  - intros [= <-]. unfold handleFileChange.
    destruct (files e !! 0%nat); [|exact Hwf].
    destruct Hwf as (_ & Hth & Hfill & _). by apply resetCanvas_wellFormed.
  - intros [= <-]. exact Hwf.
  - intros [= <-]. exact Hwf.
Qed.

Lemma run_wellFormed (evs : list Event) (s s' : State) :
  wellFormed s → run evs s = Some s' → wellFormed s'.
Proof.
  revert s. induction evs as [|ev evs IH]; intros s Hwf; simpl.
  - by intros [= <-].
  - destruct (handle ev s) as [s1|] eqn:Hev; [|discriminate].
    apply IH. exact (handle_wellFormed ev s s1 Hwf Hev).
Qed.

Lemma handleMouseDownEager_undoStack (p : Pos.t) (s : State) :
  handleMouseDownEager (pointerAt p) s
  = setUndoStack (fun _ => undoStack s ++ [snapshotOf (pages s) (currentPage s)])
                 (handleMouseDown (pointerAt p) s).
Proof. reflexivity. Qed.

Lemma handleMouseDownEager_idle (e : MouseEvent) (s : State) :
  pointerOf e = None → handleMouseDownEager e s = s.
Proof.
  unfold pointerOf, handleMouseDownEager.
  destruct (getStage e) as [stage|]; [|done]. by intros ->.
Qed.

Lemma handleMouseDownEager_wellFormed (e : MouseEvent) (s : State) :
  wellFormed s → wellFormed (handleMouseDownEager e s).
Proof.
  intros Hwf. destruct (pointerOf e) as [p|] eqn:Hp;
    [|by rewrite handleMouseDownEager_idle].
  rewrite (pointerOf_Some e p Hp), handleMouseDownEager_undoStack.
  destruct (handleMouseDown_wellFormed (pointerAt p) s Hwf)
    as (Hcur & Hth & Hfill & Hpages & _ & Hredo).
  destruct Hwf as (_ & _ & _ & Hpages0 & Hundo0 & _).
  split; [exact Hcur|]. split; [exact Hth|]. split; [exact Hfill|].
  split; [exact Hpages|]. split; [|exact Hredo].
  apply Forall_app. split; [exact Hundo0|].
  constructor; [|constructor]. by apply snapshotOk_snapshotOf.
Qed.

Lemma step_wellFormed (s s' : State) : wellFormed s → step s s' → wellFormed s'.
Proof.
  intros Hwf Hstep. destruct Hstep as [ev s s' Hev|e s _].
  - exact (handle_wellFormed ev s s' Hwf Hev).
  - by apply handleMouseDownEager_wellFormed.
Qed.

Lemma reachable_wellFormed (s : State) : reachable s → wellFormed s.
Proof.
  induction 1 as [|s s' _ IH Hstep]; [exact wellFormed_initial|].
  exact (step_wellFormed s s' IH Hstep).
Qed.

Lemma run_reachable (evs : list Event) (s s' : State) :
  reachable s → run evs s = Some s' → reachable s'.
Proof.
  revert s. induction evs as [|ev evs IH]; intros s Hreach; simpl.
  - by intros [= <-].
  - destruct (handle ev s) as [s1|] eqn:Hev; [|discriminate].
    apply IH. exact (reachable_step s s1 Hreach (step_handle ev s s1 Hev)).
Qed.

Lemma sketched_reachable : reachable sketched.
Proof.
  apply (run_reachable
           [EvMouseDown (pointerAt (Pos.mk 10 10)); EvMouseUp;
            EvToolSelect RECTANGLE;
            EvMouseDown (pointerAt (Pos.mk 50 50)); EvMouseUp]
           initialState); [exact reachable_initial|reflexivity].
Qed.

(** X1. In every state the component can reach, by handlers that return and
    by pointer-downs of either kind, [pages] has an entry for the current
    page, and the lines and shapes on show are those of that entry: the
    fallbacks of [pages[currentPage]?.lines || []] are never taken. *)
Theorem reachable_current_page_has_entry (s : State) :
  reachable s →
  ∃ pg : Page.t,
    pages s !! currentPage s = Some pg
    ∧ currentLines s = map snd (Page.lines pg)
    ∧ currentShapes s = map snd (Page.shapes pg).
Proof.
  intros Hreach. destruct (reachable_wellFormed s Hreach) as ([pg Hpg] & _).
  exists pg. unfold currentLines, currentShapes, linesOf, shapesOf.
  rewrite Hpg. done.
Qed.

Lemma reachable_current_page_has_entry_witness :
  ∃ pg : Page.t,
    pages sketched !! currentPage sketched = Some pg
    ∧ currentLines sketched = map snd (Page.lines pg)
    ∧ currentShapes sketched = map snd (Page.shapes pg).
Proof. exact (reachable_current_page_has_entry sketched sketched_reachable). Defined.

(** X2. In every reachable state every stroke, on whatever page and in
    whatever snapshot of the undo and redo stacks, holds an even number of
    coordinates and at least two: whole points, and at least the one of the
    pointer-down. *)
Theorem reachable_strokes_hold_whole_points (s : State) :
  reachable s →
  (∀ page : Z,
     Forall (fun l => Nat.even (length (Line.points l)) = true
                      ∧ (2 ≤ length (Line.points l))%nat)
            (linesOf (pages s) page))
  ∧ Forall (fun snap =>
              Forall (fun l => Nat.even (length (Line.points l)) = true
                               ∧ (2 ≤ length (Line.points l))%nat)
                     (map snd (Snapshot.lines snap)))
           (undoStack s ++ redoStack s).
Proof.
  intros Hreach.
  destruct (reachable_wellFormed s Hreach) as (_ & _ & _ & Hpages & Hundo & Hredo).
  split.
  - intros page. eapply Forall_impl; [exact (linesOf_pageOk _ page Hpages)|].
    intros l (Heven & Hlen & _). done.
  - apply Forall_app. split.
    + eapply Forall_impl; [exact Hundo|]. intros snap [Hl _].
      eapply Forall_impl; [exact Hl|]. intros l (Heven & Hlen & _). done.
    + eapply Forall_impl; [exact Hredo|]. intros snap [Hl _].
      eapply Forall_impl; [exact Hl|]. intros l (Heven & Hlen & _). done.
Qed.

Lemma reachable_strokes_hold_whole_points_witness :
  (∀ page : Z,
     Forall (fun l => Nat.even (length (Line.points l)) = true
                      ∧ (2 ≤ length (Line.points l))%nat)
            (linesOf (pages sketched) page))
  ∧ Forall (fun snap =>
              Forall (fun l => Nat.even (length (Line.points l)) = true
                               ∧ (2 ≤ length (Line.points l))%nat)
                     (map snd (Snapshot.lines snap)))
           (undoStack sketched ++ redoStack sketched).
Proof. exact (reachable_strokes_hold_whole_points sketched sketched_reachable). Defined.

(** X3. In every reachable state every shape, on whatever page and in
    whatever snapshot, has the type of a shape tool, so the [switch] of the
    layer renders it to a node and never falls to its [default]. *)
Theorem reachable_shapes_are_rendered (s : State) :
  reachable s →
  (∀ page : Z,
     Forall (fun sh => Shape.type sh ≠ SCRIBBLE
                       ∧ is_Some (renderShape (fillColor s) sh))
            (shapesOf (pages s) page))
  ∧ Forall (fun snap =>
              Forall (fun sh => Shape.type sh ≠ SCRIBBLE
                                ∧ is_Some (renderShape (fillColor s) sh))
                     (map snd (Snapshot.shapes snap)))
           (undoStack s ++ redoStack s).
Proof.
  intros Hreach.
  destruct (reachable_wellFormed s Hreach) as (_ & _ & _ & Hpages & Hundo & Hredo).
  assert (Hok : ∀ sh, shapeOk sh →
                      Shape.type sh ≠ SCRIBBLE ∧ is_Some (renderShape (fillColor s) sh)).
  { intros sh [Hty _]. split; [exact Hty|].
    unfold renderShape. destruct (Shape.type sh); [done|eauto..]. }
  split.
  - intros page. eapply Forall_impl; [exact (shapesOf_pageOk _ page Hpages)|exact Hok].
  - apply Forall_app. split.
    + eapply Forall_impl; [exact Hundo|]. intros snap [_ Hs].
      eapply Forall_impl; [exact Hs|exact Hok].
    + eapply Forall_impl; [exact Hredo|]. intros snap [_ Hs].
      eapply Forall_impl; [exact Hs|exact Hok].
Qed.

Lemma reachable_shapes_are_rendered_witness :
  (∀ page : Z,
     Forall (fun sh => Shape.type sh ≠ SCRIBBLE
                       ∧ is_Some (renderShape (fillColor sketched) sh))
            (shapesOf (pages sketched) page))
  ∧ Forall (fun snap =>
              Forall (fun sh => Shape.type sh ≠ SCRIBBLE
                                ∧ is_Some (renderShape (fillColor sketched) sh))
                     (map snd (Snapshot.shapes snap)))
           (undoStack sketched ++ redoStack sketched).
Proof. exact (reachable_shapes_are_rendered sketched sketched_reachable). Defined.

(** X4. No handler calls [setThickness] or [setFillColor]: in every
    reachable state the thickness is 2 and the fill colour "#000000", every
    stored line and shape has thickness 2, and so every node on show is
    stroked in "#000000" with width 2. *)
Theorem reachable_style_is_constant (s : State) :
  reachable s →
  thickness s = 2%float
  ∧ fillColor s = "#000000"%string
  ∧ (∀ page : Z,
       Forall (fun l => Line.thickness l = 2%float
                        ∧ renderLine (fillColor s) l
                          = KonvaLine (Line.points l) "#000000" 2 0.5 "round")
              (linesOf (pages s) page)
       ∧ Forall (fun sh => Shape.thickness sh = 2%float)
                (shapesOf (pages s) page)).
Proof.
  intros Hreach.
  destruct (reachable_wellFormed s Hreach) as (_ & Hth & Hfill & Hpages & _).
  split; [exact Hth|]. split; [exact Hfill|].
  intros page. split.
  - eapply Forall_impl; [exact (linesOf_pageOk _ page Hpages)|].
    intros l (_ & _ & Hl). split; [exact Hl|].
    unfold renderLine. by rewrite Hfill, Hl.
  - eapply Forall_impl; [exact (shapesOf_pageOk _ page Hpages)|].
    intros sh [_ Hsh]. exact Hsh.
Qed.

Lemma reachable_style_is_constant_witness :
  thickness sketched = 2%float
  ∧ fillColor sketched = "#000000"%string
  ∧ (∀ page : Z,
       Forall (fun l => Line.thickness l = 2%float
                        ∧ renderLine (fillColor sketched) l
                          = KonvaLine (Line.points l) "#000000" 2 0.5 "round")
              (linesOf (pages sketched) page)
       ∧ Forall (fun sh => Shape.thickness sh = 2%float)
                (shapesOf (pages sketched) page)).
Proof. exact (reachable_style_is_constant sketched sketched_reachable). Defined.

(** *** Pointer moves *)

(** X5. A pointer-move throws exactly when a draw is active, the event
    carries a pointer position, and the list of the current page that the
    selected tool writes to is empty (or the page has no entry); when no
    draw is active or the event carries no position it changes nothing. *)
Theorem handleMouseMove_throws_iff (e : MouseEvent) (s : State) :
  (handleMouseMove e s = None
   ↔ isDrawing s = true ∧ is_Some (pointerOf e) ∧ ¬ movable s)
  ∧ (isDrawing s = false ∨ pointerOf e = None → handleMouseMove e s = Some s).
Proof.
  split; [|apply handleMouseMove_idle].
  split.
  - intros Hthrow.
    destruct (isDrawing s) eqn:Hdrawing;
      [|by rewrite handleMouseMove_idle in Hthrow by (left; done)].
    destruct (pointerOf e) as [p|] eqn:Hp;
      [|by rewrite handleMouseMove_idle in Hthrow by (right; done)].
    split; [done|]. split; [eauto|].
    intros Hmov. destruct (handleMouseMove_movable e s Hmov) as [s' Hrun].
    congruence.
  - intros (Hdrawing & [p Hp] & Hstuck).
    rewrite (pointerOf_Some e p Hp).
    by apply handleMouseMove_not_movable.
Qed.

Lemma handleMouseMove_throws_iff_witness :
  handleMouseMove (pointerAt (Pos.mk 20 30))
                  (handleToolSelect RECTANGLE
                     (handleMouseDown (pointerAt (Pos.mk 10 10)) initialState))
  = None
  ∧ handleMouseMove (pointerAt (Pos.mk 20 30)) initialState = Some initialState.
Proof.
  split.
  - apply (proj1 (handleMouseMove_throws_iff _ _)).
    split; [reflexivity|]. split; [by eexists|].
    intros Hmov. by apply Hmov.
  - apply (proj2 (handleMouseMove_throws_iff _ _)). left. reflexivity.
Defined.

(** X6. Only [handleMouseUp] ends a draw: every other handler that returns
    leaves [isDrawing] set.  So when the canvas is cleared or a new file is
    chosen between a pointer-down and the next pointer-move, that move
    throws, from whatever state the draw began. *)
Theorem only_mouse_up_ends_a_draw :
  (∀ (ev : Event) (s s' : State),
     handle ev s = Some s' → ev ≠ EvMouseUp → isDrawing s = true →
     isDrawing s' = true)
  ∧ (∀ (s : State) (p q : Pos.t),
       run [EvMouseDown (pointerAt p); EvClearAll; EvMouseMove (pointerAt q)] s = None)
  ∧ (∀ (s : State) (p q : Pos.t) (file : File) (rest : list File),
       run [EvMouseDown (pointerAt p);
            EvFileChange {| files := file :: rest |};
            EvMouseMove (pointerAt q)] s = None).
Proof.
  split; [|split].
  - intros ev s s' Hev Hne Hdrawing. destruct ev; simpl in Hev.
    + injection Hev as <-. unfold handleMouseDown.
      destruct (getStage e) as [stage|]; [|done].
      destruct (getPointerPosition stage); done.
    + destruct (pointerOf e) as [p|] eqn:Hp.
      * rewrite (pointerOf_Some e p Hp), handleMouseMove_drawing in Hev by done.
        destruct (pages s !! currentPage s) as [pg|]; [|discriminate].
        destruct (selectedTool s).
        -- destruct (last (Page.lines pg)) as [[r l]|]; [|discriminate].
           by injection Hev as <-.
        -- destruct (last (Page.shapes pg)) as [[r sh]|]; [|discriminate].
           by injection Hev as <-.
        -- destruct (last (Page.shapes pg)) as [[r sh]|]; [|discriminate].
           by injection Hev as <-.
        -- destruct (last (Page.shapes pg)) as [[r sh]|]; [|discriminate].
           by injection Hev as <-.
      * rewrite handleMouseMove_idle in Hev by (right; done). by injection Hev as <-.
    + done.
    + injection Hev as <-. unfold undoAction. by destruct (pop (undoStack s)) as [[? ?]|].
    + injection Hev as <-. unfold redoAction. by destruct (pop (redoStack s)) as [[? ?]|].
    + by injection Hev as <-.
    + injection Hev as <-. unfold navigatePage. by destruct (pages s !! page).
    + injection Hev as <-. unfold handleFileChange. by destruct (files e !! 0%nat).
    + by injection Hev as <-.
    + by injection Hev as <-.
  - intros s p q.
    change (run [EvMouseDown (pointerAt p); EvClearAll; EvMouseMove (pointerAt q)] s)
      with (match handleMouseMove (pointerAt q)
                    (clearCanvas (handleMouseDown (pointerAt p) s)) with
            | Some s' => Some s'
            | None => None
            end).
    rewrite handleMouseMove_not_movable; [reflexivity|reflexivity|].
    unfold movable, currentLines, currentShapes.
    change (currentPage (clearCanvas (handleMouseDown (pointerAt p) s)))
      with (currentPage s).
    change (selectedTool (clearCanvas (handleMouseDown (pointerAt p) s)))
      with (selectedTool s).
    change (pages (clearCanvas (handleMouseDown (pointerAt p) s)))
      with (<[currentPage s := emptyPage]> (pages (handleMouseDown (pointerAt p) s))).
    rewrite linesOf_insert, shapesOf_insert.
    intros Hmov. by destruct (selectedTool s).
  - intros s p q file rest.
    change (run [EvMouseDown (pointerAt p);
                 EvFileChange {| files := file :: rest |};
                 EvMouseMove (pointerAt q)] s)
      with (match handleMouseMove (pointerAt q)
                    (handleFileChange {| files := file :: rest |}
                       (handleMouseDown (pointerAt p) s)) with
            | Some s' => Some s'
            | None => None
            end).
    rewrite handleMouseMove_not_movable; [reflexivity|reflexivity|].
    unfold movable, currentLines, currentShapes.
    change (currentPage (handleFileChange {| files := file :: rest |}
                           (handleMouseDown (pointerAt p) s))) with 1.
    change (selectedTool (handleFileChange {| files := file :: rest |}
                            (handleMouseDown (pointerAt p) s)))
      with (selectedTool s).
    change (pages (handleFileChange {| files := file :: rest |}
                     (handleMouseDown (pointerAt p) s)))
      with (<[1 := emptyPage]> (∅ : gmap Z Page.t)).
    rewrite linesOf_insert, shapesOf_insert.
    intros Hmov. by destruct (selectedTool s).
Qed.

Lemma only_mouse_up_ends_a_draw_witness :
  isDrawing (undoAction (handleMouseDown (pointerAt (Pos.mk 10 10)) initialState)) = true.
Proof.
  destruct only_mouse_up_ends_a_draw as (Hkeeps & _).
  apply (Hkeeps EvUndo (handleMouseDown (pointerAt (Pos.mk 10 10)) initialState));
    [reflexivity|discriminate|reflexivity].
Defined.


(** *** Undo and redo as inverses *)

Lemma redo_undo_any (s : State) :
  undoStack s ≠ [] → redoAction (undoAction s) = withoutActions s.
Proof.
  intros Hne. destruct (nonempty_snoc _ Hne) as (front & lastState & Hst).
  rewrite (undoAction_snoc s front lastState Hst).
  erewrite redoAction_snoc by reflexivity.
  unfold withoutActions, setPages. simpl.
  rewrite snapshotOf_insert, insert_insert_eq. simpl.
  by rewrite snapshot_eta, Hst.
Qed.

Lemma undo_redo_back (s : State) :
  redoStack s ≠ [] → undoAction (redoAction s) = withoutActions s.
Proof.
  intros Hne. destruct (nonempty_snoc _ Hne) as (front & lastState & Hst).
  rewrite (redoAction_snoc s front lastState Hst).
  erewrite undoAction_snoc by reflexivity.
  unfold withoutActions, setPages. simpl.
  rewrite snapshotOf_insert, insert_insert_eq. simpl.
  by rewrite snapshot_eta, Hst.
Qed.

Lemma withoutActions_undoAction (s : State) :
  undoStack s ≠ [] → withoutActions (undoAction s) = undoAction s.
Proof.
  intros Hne. destruct (nonempty_snoc _ Hne) as (front & lastState & Hst).
  rewrite (undoAction_snoc s front lastState Hst).
  unfold withoutActions, setPages. simpl.
  by rewrite snapshotOf_insert, insert_insert_eq.
Qed.

Lemma undoAction_length (s : State) :
  undoStack s ≠ [] → length (undoStack (undoAction s)) = pred (length (undoStack s)).
Proof.
  intros Hne. destruct (nonempty_snoc _ Hne) as (front & lastState & Hst).
  rewrite (undoAction_snoc s front lastState Hst), Hst, length_app. simpl. lia.
Qed.

Lemma iter_redo_undo (n : nat) (s : State) :
  (1 ≤ n)%nat → (n ≤ length (undoStack s))%nat →
  Nat.iter n redoAction (Nat.iter n undoAction s) = withoutActions s.
Proof.
  revert s. induction n as [|n IH]; intros s Hpos Hlen; [lia|].
  assert (Hne : undoStack s ≠ []) by (apply nonempty_length; lia).
  assert (Hstep : Nat.iter (S n) redoAction (Nat.iter (S n) undoAction s)
                  = redoAction (Nat.iter n redoAction (Nat.iter n undoAction (undoAction s)))).
  { rewrite (Nat.iter_succ_r n undoAction s). reflexivity. }
  rewrite Hstep. clear Hstep.
  destruct (decide (n = 0%nat)) as [->|Hn].
  - simpl. by apply redo_undo_any.
  - rewrite IH; [|lia|rewrite undoAction_length by done; lia].
    rewrite withoutActions_undoAction by done. by apply redo_undo_any.
Qed.

(** X7. Undo and redo are inverse to one another on the whole state, up to
    the [actions] array of the current page's entry: [redoAction] after
    [undoAction] (the undo stack not empty), and [undoAction] after
    [redoAction] (the redo stack not empty), give back both stacks, every
    page and every other cell as they were, the current entry keeping its
    lines and shapes and losing [actions]. *)
Theorem undo_and_redo_are_inverse (s : State) :
  (undoStack s ≠ [] → redoAction (undoAction s) = withoutActions s)
  ∧ (redoStack s ≠ [] → undoAction (redoAction s) = withoutActions s)
  ∧ undoStack (withoutActions s) = undoStack s
  ∧ redoStack (withoutActions s) = redoStack s
  ∧ currentLines (withoutActions s) = currentLines s
  ∧ currentShapes (withoutActions s) = currentShapes s
  ∧ (∀ q : Z, q ≠ currentPage s → pages (withoutActions s) !! q = pages s !! q).
Proof.
  split; [apply redo_undo_any|]. split; [apply undo_redo_back|].
  split; [reflexivity|]. split; [reflexivity|].
  unfold currentLines, currentShapes, withoutActions. simpl.
  rewrite linesOf_insert, shapesOf_insert. simpl.
  rewrite snapshotOf_lines, snapshotOf_shapes.
  split; [done|]. split; [done|].
  intros q Hq. by rewrite lookup_insert_ne.
Qed.

Lemma undo_and_redo_are_inverse_witness :
  redoAction (undoAction sketched) = withoutActions sketched
  ∧ undoAction (redoAction (undoAction sketched)) = withoutActions (undoAction sketched).
Proof.
  split.
  - apply (proj1 (undo_and_redo_are_inverse sketched)). discriminate.
  - destruct (undo_and_redo_are_inverse (undoAction sketched)) as (_ & Hback & _).
    apply Hback. discriminate.
Defined.

(** X8. Any number [n] of undos, at least one and no more than the undo
    stack holds, followed by as many redos, gives the state back, up to the
    [actions] array of the current page's entry. *)
Theorem undos_then_redos_restore (n : nat) (s : State) :
  (1 ≤ n)%nat → (n ≤ length (undoStack s))%nat →
  Nat.iter n redoAction (Nat.iter n undoAction s) = withoutActions s.
Proof. apply iter_redo_undo. Qed.

Lemma undos_then_redos_restore_witness :
  Nat.iter 3 redoAction (Nat.iter 3 undoAction sketched) = withoutActions sketched.
Proof. apply undos_then_redos_restore; simpl; lia. Defined.

(** *** Runs of undo and redo clicks *)

Lemma undoAction_frame (s : State) :
  (length (undoStack (undoAction s)) + length (redoStack (undoAction s))
   = length (undoStack s) + length (redoStack s))%nat
  ∧ currentPage (undoAction s) = currentPage s
  ∧ (∀ q, q ≠ currentPage s → pages (undoAction s) !! q = pages s !! q).
Proof.
  destruct (decide (undoStack s = [])) as [Hnil|Hne].
  { by rewrite undoAction_nil. }
  destruct (nonempty_snoc _ Hne) as (front & lastState & Hst).
  rewrite (undoAction_snoc s front lastState Hst), Hst. simpl.
  rewrite !length_app. simpl. split; [lia|]. split; [done|].
  intros q Hq. by rewrite lookup_insert_ne.
Qed.

Lemma redoAction_frame (s : State) :
  (length (undoStack (redoAction s)) + length (redoStack (redoAction s))
   = length (undoStack s) + length (redoStack s))%nat
  ∧ currentPage (redoAction s) = currentPage s
  ∧ (∀ q, q ≠ currentPage s → pages (redoAction s) !! q = pages s !! q).
Proof.
  destruct (decide (redoStack s = [])) as [Hnil|Hne].
  { by rewrite redoAction_nil. }
  destruct (nonempty_snoc _ Hne) as (front & lastState & Hst).
  rewrite (redoAction_snoc s front lastState Hst), Hst. simpl.
  rewrite !length_app. simpl. split; [lia|]. split; [done|].
  intros q Hq. by rewrite lookup_insert_ne.
Qed.

(** X9. Undo and redo clicks, in any number and order, only move snapshots
    between the two stacks: the run returns, the stacks together hold as
    many snapshots as before, the current page is the same, and no entry of
    another page changes. *)
Theorem history_clicks_move_snapshots (evs : list Event) (s : State) :
  forallb isHistoryEvent evs = true →
  ∃ s', run evs s = Some s'
    ∧ (length (undoStack s') + length (redoStack s')
       = length (undoStack s) + length (redoStack s))%nat
    ∧ currentPage s' = currentPage s
    ∧ (∀ q : Z, q ≠ currentPage s → pages s' !! q = pages s !! q).
Proof.
  revert s. induction evs as [|ev evs IH]; intros s Hall.
  - exists s. done.
  - simpl in Hall. apply andb_prop in Hall as [Hev Hevs].
    assert (Hstep : ∃ s1, handle ev s = Some s1
      ∧ (length (undoStack s1) + length (redoStack s1)
         = length (undoStack s) + length (redoStack s))%nat
      ∧ currentPage s1 = currentPage s
      ∧ (∀ q, q ≠ currentPage s → pages s1 !! q = pages s !! q)).
    { destruct ev; try discriminate Hev; simpl; eexists; (split; [reflexivity|]).
      - apply undoAction_frame.
      - apply redoAction_frame. }
    destruct Hstep as (s1 & Hrun1 & Hlen1 & Hcp1 & Hoth1).
    destruct (IH s1 Hevs) as (s' & Hrun & Hlen & Hcp & Hoth).
    exists s'. simpl. rewrite Hrun1. split; [exact Hrun|].
    split; [lia|]. split; [congruence|].
    intros q Hq. rewrite Hoth by congruence. by apply Hoth1.
Qed.

Lemma history_clicks_move_snapshots_witness :
  ∃ s', run [EvUndo; EvUndo; EvRedo; EvUndo] sketched = Some s'
    ∧ (length (undoStack s') + length (redoStack s')
       = length (undoStack sketched) + length (redoStack sketched))%nat
    ∧ currentPage s' = currentPage sketched
    ∧ (∀ q : Z, q ≠ currentPage sketched → pages s' !! q = pages sketched !! q).
Proof.
  apply (history_clicks_move_snapshots [EvUndo; EvUndo; EvRedo; EvUndo] sketched).
  reflexivity.
Defined.


(** *** Undo after draws *)

Lemma stored_entry (s : State) (q : Z) (n : nat) :
  stored s q = S n → is_Some (pages s !! q).
Proof.
  unfold stored, linesOf, shapesOf.
  destruct (pages s !! q) as [pg|]; [eauto|discriminate].
Qed.

Lemma run_draws_undone (ds : list Draw) (s1 : State) (front : list Snapshot.t) :
  is_Some (pages s1 !! currentPage s1) →
  undoStack s1 = front ++ [snapshotOf (pages s1) (currentPage s1)] →
  ∃ s', run (concat (map drawEvents ds)) s1 = Some s'
    ∧ currentPage (Nat.iter (S (length ds)) undoAction s') = currentPage s1
    ∧ currentLines (Nat.iter (S (length ds)) undoAction s') = currentLines s1
    ∧ currentShapes (Nat.iter (S (length ds)) undoAction s') = currentShapes s1
    ∧ undoStack (Nat.iter (S (length ds)) undoAction s') = front.
Proof.
  revert s1 front. induction ds as [|d ds IH]; intros s1 front Hentry Hst.
  - exists s1. split; [reflexivity|].
    destruct (undoAction_top s1 front _ Hst) as (Hcp & Hundo & Hl & Hs & _).
    change (Nat.iter (S (length (@nil Draw))) undoAction s1) with (undoAction s1).
    rewrite Hl, Hs, snapshotOf_lines, snapshotOf_shapes. done.
  - destruct (run_draw d s1)
      as (s2 & Hrun2 & _ & Hcp2 & Hstored2 & [snap Hundo2] & _ & _ & Htop2).
    specialize (Htop2 Hentry). rewrite Hundo2, last_snoc in Htop2.
    injection Htop2 as ->. rewrite <- Hcp2 in Hundo2, Hstored2.
    destruct (IH s2 (undoStack s1) (stored_entry _ _ _ Hstored2) Hundo2)
      as (s' & Hrun & Hcp & _ & _ & Hundo).
    exists s'. split.
    { change (concat (map drawEvents (d :: ds)))
        with (drawEvents d ++ concat (map drawEvents ds)).
      by rewrite run_app, Hrun2. }
    change (Nat.iter (S (length (d :: ds))) undoAction s')
      with (undoAction (Nat.iter (S (length ds)) undoAction s')).
    rewrite Hst in Hundo.
    destruct (undoAction_top _ front _ Hundo) as (Hcp' & Hundo' & Hl & Hs & _).
    rewrite Hl, Hs, snapshotOf_lines, snapshotOf_shapes.
    split; [congruence|done].
Qed.

(** X10. Undo lags one draw behind.  The snapshot a pointer-down pushes
    holds the element of the draw it begins, so the first undo after a
    completed draw leaves the page as drawn; and after a draw [d] followed
    by any [n] further draws, [n + 1] undos show the page as it was after
    [d], not before it, while the undo stack is back to what it was before
    [d]. *)
Theorem undo_lags_one_draw_behind (d : Draw) (ds : list Draw) (s : State) :
  isDrawing s = false →
  is_Some (pages s !! currentPage s) →
  ∃ s1 s' : State,
    run (drawEvents d) s = Some s1
    ∧ run (concat (map drawEvents ds)) s1 = Some s'
    ∧ stored s1 (currentPage s) = S (stored s (currentPage s))
    ∧ currentLines (undoAction s1) = currentLines s1
    ∧ currentShapes (undoAction s1) = currentShapes s1
    ∧ currentLines (Nat.iter (S (length ds)) undoAction s') = currentLines s1
    ∧ currentShapes (Nat.iter (S (length ds)) undoAction s') = currentShapes s1
    ∧ undoStack (Nat.iter (S (length ds)) undoAction s') = undoStack s.
Proof.
  intros _ Hentry.
  destruct (run_draw d s)
    as (s1 & Hrun1 & _ & Hcp1 & Hstored1 & [snap Hundo1] & _ & _ & Htop1).
  specialize (Htop1 Hentry). rewrite Hundo1, last_snoc in Htop1.
  injection Htop1 as ->.
  assert (Hentry1 : is_Some (pages s1 !! currentPage s1))
    by (rewrite Hcp1; exact (stored_entry _ _ _ Hstored1)).
  rewrite <- Hcp1 in Hundo1.
  destruct (run_draws_undone [] s1 (undoStack s) Hentry1 Hundo1)
    as (s0 & Hrun0 & _ & Hl0 & Hs0 & _).
  injection Hrun0 as <-.
  destruct (run_draws_undone ds s1 (undoStack s) Hentry1 Hundo1)
    as (s' & Hrun & _ & Hl & Hs & Hundo).
  exists s1, s'. done.
Qed.

Lemma undo_lags_one_draw_behind_witness :
  ∃ s1 s' : State,
    run (drawEvents strokeA) initialState = Some s1
    ∧ run (concat (map drawEvents [rectangleB])) s1 = Some s'
    ∧ stored s1 (currentPage initialState) = S (stored initialState (currentPage initialState))
    ∧ currentLines (undoAction s1) = currentLines s1
    ∧ currentShapes (undoAction s1) = currentShapes s1
    ∧ currentLines (Nat.iter (S (length [rectangleB])) undoAction s') = currentLines s1
    ∧ currentShapes (Nat.iter (S (length [rectangleB])) undoAction s') = currentShapes s1
    ∧ undoStack (Nat.iter (S (length [rectangleB])) undoAction s') = undoStack initialState.
Proof.
  apply (undo_lags_one_draw_behind strokeA [rectangleB] initialState).
  - reflexivity.
  - by exists emptyPage.
Defined.

(** *** Clear-all and the history *)

Lemma snapshotOf_blank (s : State) :
  currentLines s = [] → currentShapes s = [] →
  snapshotOf (pages s) (currentPage s) = emptySnapshot.
Proof.
  unfold currentLines, currentShapes, linesOf, shapesOf, snapshotOf.
  destruct (pages s !! currentPage s) as [pg|]; [|done].
  intros Hl%map_eq_nil Hs%map_eq_nil. by rewrite Hl, Hs.
Qed.

Lemma undoAction_blank (s : State) :
  currentLines s = [] → currentShapes s = [] →
  Forall (fun snap => snap = emptySnapshot) (undoStack s) →
  Forall (fun snap => snap = emptySnapshot) (redoStack s) →
  currentLines (undoAction s) = [] ∧ currentShapes (undoAction s) = []
  ∧ Forall (fun snap => snap = emptySnapshot) (undoStack (undoAction s))
  ∧ Forall (fun snap => snap = emptySnapshot) (redoStack (undoAction s)).
Proof.
  intros Hl Hs Hundo Hredo.
  destruct (decide (undoStack s = [])) as [Hnil|Hne].
  { by rewrite undoAction_nil. }
  destruct (nonempty_snoc _ Hne) as (front & lastState & Hst).
  rewrite Hst in Hundo. apply Forall_app in Hundo as [Hfront Hlast].
  rewrite Forall_singleton in Hlast. subst lastState.
  rewrite (undoAction_snoc s front emptySnapshot Hst).
  rewrite (snapshotOf_blank s Hl Hs).
  unfold currentLines, currentShapes. simpl.
  rewrite linesOf_insert, shapesOf_insert. simpl.
  split; [done|]. split; [done|]. split; [done|].
  apply Forall_app. split; [done|]. by constructor.
Qed.

Lemma redoAction_blank (s : State) :
  currentLines s = [] → currentShapes s = [] →
  Forall (fun snap => snap = emptySnapshot) (undoStack s) →
  Forall (fun snap => snap = emptySnapshot) (redoStack s) →
  currentLines (redoAction s) = [] ∧ currentShapes (redoAction s) = []
  ∧ Forall (fun snap => snap = emptySnapshot) (undoStack (redoAction s))
  ∧ Forall (fun snap => snap = emptySnapshot) (redoStack (redoAction s)).
Proof.
  intros Hl Hs Hundo Hredo.
  destruct (decide (redoStack s = [])) as [Hnil|Hne].
  { by rewrite redoAction_nil. }
  destruct (nonempty_snoc _ Hne) as (front & lastState & Hst).
  rewrite Hst in Hredo. apply Forall_app in Hredo as [Hfront Hlast].
  rewrite Forall_singleton in Hlast. subst lastState.
  rewrite (redoAction_snoc s front emptySnapshot Hst).
  rewrite (snapshotOf_blank s Hl Hs).
  unfold currentLines, currentShapes. simpl.
  rewrite linesOf_insert, shapesOf_insert. simpl.
  split; [done|]. split; [done|]. split; [|done].
  apply Forall_app. split; [done|]. by constructor.
Qed.

Lemma run_history_blank (evs : list Event) (s : State) :
  forallb isHistoryEvent evs = true →
  currentLines s = [] → currentShapes s = [] →
  Forall (fun snap => snap = emptySnapshot) (undoStack s) →
  Forall (fun snap => snap = emptySnapshot) (redoStack s) →
  ∃ s', run evs s = Some s' ∧ currentLines s' = [] ∧ currentShapes s' = [].
Proof.
  revert s. induction evs as [|ev evs IH]; intros s Hall Hl Hs Hundo Hredo.
  - exists s. done.
  - simpl in Hall. apply andb_prop in Hall as [Hev Hevs].
    destruct ev; try discriminate Hev; simpl.
    + destruct (undoAction_blank s Hl Hs Hundo Hredo) as (? & ? & ? & ?).
      by apply IH.
    + destruct (redoAction_blank s Hl Hs Hundo Hredo) as (? & ? & ? & ?).
      by apply IH.
Qed.

(** X11. Clear-all cannot be undone, and neither can the choice of a new
    file: after [clearCanvas], or after [handleFileChange] with a file, no
    run of undo and redo clicks puts a line or a shape back on the current
    page. *)
Theorem clear_all_cannot_be_undone (evs : list Event) (s : State) :
  forallb isHistoryEvent evs = true →
  (∃ s', run evs (clearCanvas s) = Some s'
     ∧ currentLines s' = [] ∧ currentShapes s' = [])
  ∧ (∀ (file : File) (rest : list File),
       ∃ s', run evs (handleFileChange {| files := file :: rest |} s) = Some s'
         ∧ currentLines s' = [] ∧ currentShapes s' = []).
Proof.
  intros Hall. split.
  - apply run_history_blank; [exact Hall|..].
    + unfold currentLines, clearCanvas. simpl. by rewrite linesOf_insert.
    + unfold currentShapes, clearCanvas. simpl. by rewrite shapesOf_insert.
    + by constructor.
    + constructor.
  - intros file rest. apply run_history_blank; [exact Hall|..].
    + reflexivity.
    + reflexivity.
    + by constructor.
    + constructor.
Qed.

Lemma clear_all_cannot_be_undone_witness :
  ∃ s', run [EvUndo; EvUndo; EvRedo] (clearCanvas sketched) = Some s'
    ∧ currentLines s' = [] ∧ currentShapes s' = [].
Proof.
  apply (proj1 (clear_all_cannot_be_undone [EvUndo; EvUndo; EvRedo] sketched eq_refl)).
Defined.

(** X12. The history is shared by all pages: after [clearCanvas] on one
    page, going to any page [q] and clicking undo leaves [q] without lines
    and shapes, whatever it held, and the undo stack empty. *)
Theorem undo_after_clear_erases_any_page (s : State) (q : Z) :
  currentPage (undoAction (navigatePage q (clearCanvas s))) = q
  ∧ currentLines (undoAction (navigatePage q (clearCanvas s))) = []
  ∧ currentShapes (undoAction (navigatePage q (clearCanvas s))) = []
  ∧ undoStack (undoAction (navigatePage q (clearCanvas s))) = [].
Proof.
  assert (Hst : undoStack (navigatePage q (clearCanvas s)) = [] ++ [emptySnapshot]).
  { by rewrite navigatePage_undoStack. }
  destruct (undoAction_top _ _ _ Hst) as (Hcp & Hundo & Hl & Hs & _).
  rewrite Hcp, navigatePage_currentPage. done.
Qed.


(** *** Navigation and pagination *)

(** X13. Turning pages never changes what a page shows: after
    [navigatePage n] every page, [n] included, shows the lines and shapes it
    showed before.  Navigating to the same page twice is navigating once,
    and going to [n] and back to the page one came from shows that page as
    it was. *)
Theorem navigation_changes_no_content (s : State) (n : Z) :
  (∀ q : Z,
     linesOf (pages (navigatePage n s)) q = linesOf (pages s) q
     ∧ shapesOf (pages (navigatePage n s)) q = shapesOf (pages s) q)
  ∧ navigatePage n (navigatePage n s) = navigatePage n s
  ∧ currentPage (navigatePage (currentPage s) (navigatePage n s)) = currentPage s
  ∧ currentLines (navigatePage (currentPage s) (navigatePage n s)) = currentLines s
  ∧ currentShapes (navigatePage (currentPage s) (navigatePage n s)) = currentShapes s.
Proof.
  split; [intros q; apply navigatePage_shows|].
  split.
  { unfold navigatePage. destruct (pages s !! n) as [pg|] eqn:Hn; simpl.
    - by rewrite Hn.
    - by rewrite lookup_insert_eq. }
  unfold currentLines, currentShapes.
  rewrite navigatePage_currentPage.
  destruct (navigatePage_shows (currentPage s) (currentPage s) (navigatePage n s))
    as [-> ->].
  destruct (navigatePage_shows n (currentPage s) s) as [-> ->]. done.
Qed.

Lemma pageClick_in_range (c : PageClick) (s : State) :
  1 ≤ currentPage s →
  (numPages s ≠ 0 → currentPage s ≤ numPages s) →
  1 ≤ currentPage (pageClick c s)
  ∧ (numPages s ≠ 0 → currentPage (pageClick c s) ≤ numPages s)
  ∧ numPages (pageClick c s) = numPages s.
Proof.
  intros Hlow Hhigh. destruct c; simpl.
  - unfold previousClick, isFirstPage.
    destruct (Z.eqb_spec (currentPage s) 1) as [Hfirst|Hfirst]; [done|].
    rewrite navigatePage_currentPage, navigatePage_numPages.
    split; [lia|]. split; [|done]. intros Hn. specialize (Hhigh Hn). lia.
  - unfold nextClick, isLastPage.
    destruct (Z.eqb_spec (numPages s) 0) as [Hzero|Hzero].
    + rewrite navigatePage_currentPage, navigatePage_numPages.
      split; [lia|]. split; [done|done].
    + destruct (Z.eqb_spec (currentPage s) (numPages s)) as [Hlast|Hlast]; [done|].
      rewrite navigatePage_currentPage, navigatePage_numPages.
      split; [lia|]. split; [|done]. intros _. specialize (Hhigh Hzero). lia.
Qed.

(** X14. The pagination buttons keep the current page in range: from a
    state whose current page is at least 1 and, when the page count is known
    (not 0), at most the page count, any clicks on Previous and Next leave
    it so, and leave the page count alone. *)
Theorem pagination_stays_in_range (cs : list PageClick) (s : State) :
  1 ≤ currentPage s →
  (numPages s ≠ 0 → currentPage s ≤ numPages s) →
  1 ≤ currentPage (pageClicks cs s)
  ∧ (numPages s ≠ 0 → currentPage (pageClicks cs s) ≤ numPages s)
  ∧ numPages (pageClicks cs s) = numPages s.
Proof.
  revert s. induction cs as [|c cs IH]; intros s Hlow Hhigh; [done|].
  destruct (pageClick_in_range c s Hlow Hhigh) as (Hlow1 & Hhigh1 & Hn1).
  change (pageClicks (c :: cs) s) with (pageClicks cs (pageClick c s)).
  destruct (IH (pageClick c s)) as (Hlow2 & Hhigh2 & Hn2).
  - exact Hlow1.
  - rewrite Hn1. exact Hhigh1.
  - split; [exact Hlow2|]. split; [|congruence].
    intros Hn. rewrite <- Hn1. apply Hhigh2. congruence.
Qed.

Lemma pagination_stays_in_range_witness :
  1 ≤ currentPage (pageClicks [Next; Next; Next; Next; Previous]
                              (onDocumentLoadSuccess 3 initialState))
  ∧ (numPages (onDocumentLoadSuccess 3 initialState) ≠ 0 →
     currentPage (pageClicks [Next; Next; Next; Next; Previous]
                             (onDocumentLoadSuccess 3 initialState))
     ≤ numPages (onDocumentLoadSuccess 3 initialState))
  ∧ numPages (pageClicks [Next; Next; Next; Next; Previous]
                         (onDocumentLoadSuccess 3 initialState))
    = numPages (onDocumentLoadSuccess 3 initialState).
Proof.
  apply pagination_stays_in_range.
  - simpl. lia.
  - intros _. simpl. lia.
Defined.

Lemma nextClicks_past_the_end (j : nat) (s : State) :
  numPages s < currentPage s →
  currentPage (pageClicks (repeat Next j) s) = currentPage s + Z.of_nat j
  ∧ numPages (pageClicks (repeat Next j) s) = numPages s.
Proof.
  revert s. induction j as [|j IH]; intros s Hpast.
  - simpl. split; [lia|done].
  - change (pageClicks (repeat Next (S j)) s)
      with (pageClicks (repeat Next j) (nextClick s)).
    assert (Hnext : currentPage (nextClick s) = currentPage s + 1
                    ∧ numPages (nextClick s) = numPages s).
    { unfold nextClick, isLastPage.
      destruct (Z.eqb_spec (numPages s) 0) as [Hzero|Hzero].
      - by rewrite navigatePage_currentPage, navigatePage_numPages.
      - destruct (Z.eqb_spec (currentPage s) (numPages s)) as [Hlast|Hlast]; [lia|].
        by rewrite navigatePage_currentPage, navigatePage_numPages. }
    destruct Hnext as [Hcp Hn].
    destruct (IH (nextClick s)) as [Hcp' Hn']; [lia|].
    rewrite Hcp', Hn', Hcp, Hn. split; [lia|done].
Qed.

Lemma nextClicks_while_loading (m : nat) (s : State) :
  numPages s = 0 → 1 ≤ currentPage s →
  currentPage (pageClicks (repeat Next m) s) = currentPage s + Z.of_nat m
  ∧ numPages (pageClicks (repeat Next m) s) = 0.
Proof.
  intros Hzero Hlow.
  destruct (nextClicks_past_the_end m s) as [Hcp Hn]; [lia|].
  split; [exact Hcp|congruence].
Qed.

(** X15. Pages turned while a document is loading are not clamped when its
    page count arrives.  After a file is chosen the page count is 0 and
    Next is never refused; if [m] clicks on Next are made before
    [onDocumentLoadSuccess n] and [n < 1 + m], the current page is past the
    last page, Next is still not refused, and [j] more clicks lead to page
    [1 + m + j]. *)
Theorem pages_turned_while_loading_are_not_clamped
        (s : State) (file : File) (rest : list File) (m j : nat) (n : Z) :
  n < 1 + Z.of_nat m →
  currentPage
    (pageClicks (repeat Next j)
       (onDocumentLoadSuccess n
          (pageClicks (repeat Next m)
             (handleFileChange {| files := file :: rest |} s))))
  = 1 + Z.of_nat m + Z.of_nat j
  ∧ numPages
      (pageClicks (repeat Next j)
         (onDocumentLoadSuccess n
            (pageClicks (repeat Next m)
               (handleFileChange {| files := file :: rest |} s))))
    = n.
Proof.
  intros Hn.
  destruct (nextClicks_while_loading m (handleFileChange {| files := file :: rest |} s))
    as [Hcp Hzero]; [reflexivity|simpl; lia|].
  set (s1 := pageClicks (repeat Next m) (handleFileChange {| files := file :: rest |} s))
    in *.
  change (currentPage (handleFileChange {| files := file :: rest |} s)) with 1 in Hcp.
  destruct (nextClicks_past_the_end j (onDocumentLoadSuccess n s1)) as [Hcp' Hn'].
  - change (numPages (onDocumentLoadSuccess n s1)) with n.
    change (currentPage (onDocumentLoadSuccess n s1)) with (currentPage s1). lia.
  - rewrite Hcp', Hn'.
    change (currentPage (onDocumentLoadSuccess n s1)) with (currentPage s1).
    split; [lia|reflexivity].
Qed.

Lemma pages_turned_while_loading_are_not_clamped_witness :
  currentPage
    (pageClicks (repeat Next 2)
       (onDocumentLoadSuccess 1
          (pageClicks (repeat Next 1)
             (handleFileChange {| files := ["a.pdf"%string] |} sketched))))
  = 1 + Z.of_nat 1 + Z.of_nat 2
  ∧ numPages
      (pageClicks (repeat Next 2)
         (onDocumentLoadSuccess 1
            (pageClicks (repeat Next 1)
               (handleFileChange {| files := ["a.pdf"%string] |} sketched))))
    = 1.
Proof.
  apply (pages_turned_while_loading_are_not_clamped sketched "a.pdf"%string [] 1%nat 2%nat 1).
  simpl. lia.
Defined.

(** *** Rendering *)

Lemma abs_opp (w : float) : abs (- w) = abs w.
Proof.
  apply Prim2SF_inj. rewrite !abs_spec, opp_spec. by destruct (Prim2SF w).
Qed.

(** X16. A rectangle and a circle are drawn from the sign-less extents:
    the node rendered for a shape of type RECTANGLE or CIRCLE is the one
    rendered for the shape with the opposite width and height.  It keeps the
    origin of the shape, so a drag up and to the left is shown as the same
    drag down and to the right of the pointer-down position. *)
Theorem render_drops_the_sign_of_extents (fill : string) (sh : Shape.t) :
  Shape.type sh = RECTANGLE ∨ Shape.type sh = CIRCLE →
  renderShape fill
    (Shape.mk (Shape.type sh) (Shape.x sh) (Shape.y sh)
              (- Shape.width sh) (- Shape.height sh) (Shape.thickness sh))
  = renderShape fill sh
  ∧ (Shape.type sh = RECTANGLE →
     renderShape fill sh
     = Some (KonvaRect (Shape.x sh) (Shape.y sh)
                       (abs (Shape.width sh)) (abs (Shape.height sh))
                       fill (Shape.thickness sh)))
  ∧ (Shape.type sh = CIRCLE →
     renderShape fill sh
     = Some (KonvaCircle (Shape.x sh) (Shape.y sh) (abs (Shape.width sh))
                         fill (Shape.thickness sh))).
Proof.
  intros Hty. split; [|split].
  - unfold renderShape. simpl.
    destruct Hty as [-> | ->]; by rewrite !abs_opp.
  - intros Hrect. unfold renderShape. by rewrite Hrect.
  - intros Hcirc. unfold renderShape. by rewrite Hcirc.
Qed.

Lemma render_drops_the_sign_of_extents_witness :
  renderShape "#000000" (Shape.mk RECTANGLE 50 50 40 40 2)
  = renderShape "#000000" (Shape.mk RECTANGLE 50 50 (-40) (-40) 2).
Proof.
  destruct (render_drops_the_sign_of_extents
              "#000000" (Shape.mk RECTANGLE 50 50 (-40) (-40) 2)) as [Hsame _].
  - left. reflexivity.
  - exact Hsame.
Defined.

(** *** What a draw stores *)

(** X17. A completed SCRIBBLE draw appends one line to the current page:
    its points are the coordinates of the pointer-down followed, in order,
    by those of every pointer-move that carried a position, its thickness
    the component's.  The shapes of the page stay as they were. *)
Theorem scribble_draw_stores_its_path (d : Draw) (s : State) :
  drawTool d = SCRIBBLE →
  ∃ s', run (drawEvents d) s = Some s'
    ∧ currentLines s'
      = currentLines s
          ++ [Line.mk ([Pos.x (drawStart d); Pos.y (drawStart d)] ++ coordsOf (drawMoves d))
                      (thickness s)]
    ∧ currentShapes s' = currentShapes s
    ∧ currentPage s' = currentPage s.
Proof.
  intros Htool. rewrite run_draw_stroke by exact Htool. eexists.
  split; [reflexivity|].
  destruct (beginLine_shows
              (Line.mk ([Pos.x (drawStart d); Pos.y (drawStart d)] ++ coordsOf (drawMoves d))
                       (thickness s))
              (handleToolSelect SCRIBBLE s)) as [Hl Hs].
  split; [exact Hl|]. split; [exact Hs|reflexivity].
Qed.

Lemma scribble_draw_stores_its_path_witness :
  ∃ s', run (drawEvents strokeA) sketched = Some s'
    ∧ currentLines s'
      = currentLines sketched
          ++ [Line.mk ([Pos.x (drawStart strokeA); Pos.y (drawStart strokeA)]
                         ++ coordsOf (drawMoves strokeA))
                      (thickness sketched)]
    ∧ currentShapes s' = currentShapes sketched
    ∧ currentPage s' = currentPage sketched.
Proof. exact (scribble_draw_stores_its_path strokeA sketched eq_refl). Defined.

(** X18. A completed draw with a shape tool appends one shape to the
    current page: its type is the tool, its origin the pointer-down
    position, and its width and height the last pointer-move position that
    was carried minus the origin, earlier moves leaving no trace; with no
    such move they are 0.  The lines of the page stay as they were. *)
Theorem shape_draw_stores_its_last_drag (d : Draw) (s : State) :
  drawTool d ≠ SCRIBBLE →
  ∃ s', run (drawEvents d) s = Some s'
    ∧ currentShapes s'
      = currentShapes s
          ++ [dragToLast
                (Shape.mk (drawTool d) (Pos.x (drawStart d)) (Pos.y (drawStart d))
                          0 0 (thickness s))
                (lastPointerFrom None (drawMoves d))]
    ∧ currentLines s' = currentLines s
    ∧ currentPage s' = currentPage s.
Proof.
  intros Htool. rewrite run_draw_shape by exact Htool. eexists.
  split; [reflexivity|].
  destruct (beginShape_shows
              (dragToLast
                 (Shape.mk (drawTool d) (Pos.x (drawStart d)) (Pos.y (drawStart d))
                           0 0 (thickness s))
                 (lastPointerFrom None (drawMoves d)))
              (handleToolSelect (drawTool d) s)) as [Hl Hs].
  split; [exact Hs|]. split; [exact Hl|reflexivity].
Qed.

Lemma shape_draw_stores_its_last_drag_witness :
  ∃ s', run (drawEvents rectangleB) sketched = Some s'
    ∧ currentShapes s'
      = currentShapes sketched
          ++ [dragToLast
                (Shape.mk (drawTool rectangleB) (Pos.x (drawStart rectangleB))
                          (Pos.y (drawStart rectangleB)) 0 0 (thickness sketched))
                (lastPointerFrom None (drawMoves rectangleB))]
    ∧ currentLines s' = currentLines sketched
    ∧ currentPage s' = currentPage sketched.
Proof.
  apply (shape_draw_stores_its_last_drag rectangleB sketched). discriminate.
Defined.
